(** * Personal Library Manager: a shallow embedding of [app.py]

    The program keeps a list of book records in the session state, mirrors it
    to [library.json] after every mutation, and offers add / remove / search /
    statistics over it.  The embedding follows the source function by
    function:

    - Python [str] values are sequences of Unicode code points ([str]);
    - what [json.load] can return is a [pyvalue]; what [add_book] builds is a
      [book], whose dictionary form is [dict_of_book];
    - [json.dump (..., indent=4)] and [json.load] are modelled on the text of
      the file ([json_dumps], [json_loads]);
    - the session state and the backing file form the [state] that
      [add_book], [remove_book] and [save_library_to_file] thread. *)

From Stdlib Require Import ZArith NArith List Bool Lia String Ascii.
From Stdlib Require Import DecimalZ DecimalPos.
From Stdlib Require Import Floats.PrimFloat Numbers.Cyclic.Int63.Uint63.
Import ListNotations.

(* ================================================================== *)
(** ** Text *)
(* ================================================================== *)

Module Text.

Local Open Scope N_scope.

(** A Python [str]: the sequence of its code points. *)
Definition str := list N.

(** A literal of the source, written as a Rocq string. *)
Definition lit (s : string) : str :=
  List.map N_of_ascii (list_ascii_of_string s).

Fixpoint str_eqb (a b : str) : bool :=
  match a, b with
  | [], [] => true
  | x :: a', y :: b' => (x =? y) && str_eqb a' b'
  | _, _ => false
  end.

(** [b.startswith(a)]. *)
Fixpoint startswith (a b : str) : bool :=
  match a, b with
  | [], _ => true
  | x :: a', y :: b' => (x =? y) && startswith a' b'
  | _ :: _, [] => false
  end.

(** [a in b] on strings: [a] occurs in [b] as a contiguous run. *)
Fixpoint contains (a b : str) : bool :=
  startswith a b ||
  match b with
  | [] => false
  | _ :: b' => contains a b'
  end.

(** The characters the JSON layer names. *)
Definition QUOTE : N := 34.       (* the double quote *)
Definition BACKSLASH : N := 92.
Definition COMMA : N := 44.
Definition COLON : N := 58.
Definition SPACE : N := 32.
Definition NEWLINE : N := 10.
Definition LBRACKET : N := 91.
Definition RBRACKET : N := 93.
Definition LBRACE : N := 123.
Definition RBRACE : N := 125.
Definition MINUS : N := 45.

Definition is_digit (c : N) : bool := (48 <=? c) && (c <=? 57).

(** The digits of a [Decimal.uint], most significant first. *)
Fixpoint uint_chars (u : Decimal.uint) : str :=
  match u with
  | Decimal.Nil => []
  | Decimal.D0 u' => 48 :: uint_chars u'
  | Decimal.D1 u' => 49 :: uint_chars u'
  | Decimal.D2 u' => 50 :: uint_chars u'
  | Decimal.D3 u' => 51 :: uint_chars u'
  | Decimal.D4 u' => 52 :: uint_chars u'
  | Decimal.D5 u' => 53 :: uint_chars u'
  | Decimal.D6 u' => 54 :: uint_chars u'
  | Decimal.D7 u' => 55 :: uint_chars u'
  | Decimal.D8 u' => 56 :: uint_chars u'
  | Decimal.D9 u' => 57 :: uint_chars u'
  end.

(** [str(n)] for a Python [int]: a minus sign for negative numbers, then the
    decimal digits without leading zeros. *)
Definition int_str (z : Z) : str :=
  match Z.to_int z with
  | Decimal.Pos u => uint_chars u
  | Decimal.Neg u => MINUS :: uint_chars u
  end.

(** The reading of a run of digit characters; a character that is no digit
    ends it. *)
Fixpoint chars_uint (s : str) : Decimal.uint :=
  match s with
  | [] => Decimal.Nil
  | c :: s' =>
      let u := chars_uint s' in
      if c =? 48 then Decimal.D0 u else
      if c =? 49 then Decimal.D1 u else
      if c =? 50 then Decimal.D2 u else
      if c =? 51 then Decimal.D3 u else
      if c =? 52 then Decimal.D4 u else
      if c =? 53 then Decimal.D5 u else
      if c =? 54 then Decimal.D6 u else
      if c =? 55 then Decimal.D7 u else
      if c =? 56 then Decimal.D8 u else
      if c =? 57 then Decimal.D9 u else Decimal.Nil
  end.

(** The longest prefix of digits, and what follows it. *)
Fixpoint span_digits (s : str) : str * str :=
  match s with
  | c :: s' =>
      if is_digit c
      then let '(d, r) := span_digits s' in (c :: d, r)
      else ([], s)
  | [] => ([], [])
  end.

End Text.
Export Text.

(* ================================================================== *)
(** ** Python values and the JSON encoder *)
(* ================================================================== *)

(** The values [json.load] can produce.  A [float] is kept as the text of its
    literal: floating point is not part of this model, and the program never
    stores one.  A [dict] is its list of items in insertion order. *)
Unset Elimination Schemes.
Inductive pyvalue : Type :=
| PNone : pyvalue
| PBool : bool -> pyvalue
| PInt : Z -> pyvalue
| PFloat : str -> pyvalue
| PStr : str -> pyvalue
| PList : list pyvalue -> pyvalue
| PDict : list (str * pyvalue) -> pyvalue.
Set Elimination Schemes.

Module JsonEncoder.

Local Open Scope N_scope.

(** One lowercase hexadecimal digit. *)
Definition hex_digit (d : N) : N := if d <? 10 then 48 + d else 87 + d.

(** ['\\u{0:04x}'.format(n)] for [n < 0x10000]. *)
Definition u_escape (n : N) : str :=
  [BACKSLASH; 117;
   hex_digit (N.land (N.shiftr n 12) 15);
   hex_digit (N.land (N.shiftr n 8) 15);
   hex_digit (N.land (N.shiftr n 4) 15);
   hex_digit (N.land n 15)].

(** [py_encode_basestring_ascii], one character: printable ASCII other than
    the quote and the backslash is copied; the others go through [ESCAPE_DCT]
    or become [\uXXXX], a surrogate pair above the basic plane. *)
Definition encode_char (c : N) : str :=
  if (32 <=? c) && (c <=? 126) && negb (c =? QUOTE) && negb (c =? BACKSLASH)
  then [c]
  else if c =? QUOTE then [BACKSLASH; QUOTE]
  else if c =? BACKSLASH then [BACKSLASH; BACKSLASH]
  else if c =? 8 then [BACKSLASH; 98]
  else if c =? 12 then [BACKSLASH; 102]
  else if c =? 10 then [BACKSLASH; 110]
  else if c =? 13 then [BACKSLASH; 114]
  else if c =? 9 then [BACKSLASH; 116]
  else if c <? 65536 then u_escape c
  else
    let n := c - 65536 in
    u_escape (N.lor 55296 (N.land (N.shiftr n 10) 1023)) ++
    u_escape (N.lor 56320 (N.land n 1023)).

Definition encode_chars (s : str) : str := flat_map encode_char s.

Definition encode_basestring_ascii (s : str) : str :=
  QUOTE :: encode_chars s ++ [QUOTE].

(** ['\n' + _indent * level] with [indent=4]. *)
Definition newline_indent (level : nat) : str :=
  NEWLINE :: repeat SPACE (4 * level).

(** [_iterencode] with [indent=4], hence the separators [","] and [": "]:
    the chunks it yields, concatenated.  [level] is
    [_current_indent_level].  The first item of a container follows the
    opening bracket and a new line, each later one a separator; the closing
    bracket comes on a line of its own at the outer level. *)
Fixpoint iterencode (level : nat) (v : pyvalue) : str :=
  match v with
  | PNone => lit "null"
  | PBool true => lit "true"
  | PBool false => lit "false"
  | PInt z => int_str z
  | PFloat l => l
  | PStr s => encode_basestring_ascii s
  | PList [] => lit "[]"
  | PList (x :: xs) =>
      LBRACKET :: newline_indent (S level) ++ iterencode (S level) x ++
      flat_map
        (fun y => COMMA :: newline_indent (S level) ++ iterencode (S level) y)
        xs ++
      newline_indent level ++ [RBRACKET]
  | PDict [] => lit "{}"
  | PDict (kx :: kvs) =>
      LBRACE :: newline_indent (S level) ++
      encode_basestring_ascii (fst kx) ++ COLON :: SPACE ::
      iterencode (S level) (snd kx) ++
      flat_map
        (fun ky =>
           COMMA :: newline_indent (S level) ++
           encode_basestring_ascii (fst ky) ++ COLON :: SPACE ::
           iterencode (S level) (snd ky))
        kvs ++
      newline_indent level ++ [RBRACE]
  end.

(** The text [json.dump(obj, f, indent=4)] writes. *)
Definition json_dumps (v : pyvalue) : str := iterencode 0 v.

End JsonEncoder.
Export JsonEncoder.

(* ================================================================== *)
(** ** The JSON decoder *)
(* ================================================================== *)

(** What a call can raise.  [JSONDecodeError] stands for every message of
    [json.decoder]; they all abort [json.load] the same way. *)
Inductive exn : Type :=
| JSONDecodeError : exn
| RecursionError : exn.

Inductive result (A : Type) : Type :=
| Ok : A -> result A
| Raise : exn -> result A.
Arguments Ok {A} _.
Arguments Raise {A} _.

Definition bind {A B : Type} (m : result A) (k : A -> result B) : result B :=
  match m with
  | Ok a => k a
  | Raise e => Raise e
  end.

Notation "' p <- m ;; k" := (bind m (fun p => k))
  (at level 61, p pattern, m at next level, right associativity).

Module JsonDecoder.

Local Open Scope N_scope.

(** [WHITESPACE_STR = ' \t\n\r']. *)
Definition is_ws (c : N) : bool :=
  (c =? 32) || (c =? 9) || (c =? 10) || (c =? 13).

(** [WHITESPACE.match(s, end).end()]. *)
Fixpoint skip_ws (s : str) : str :=
  match s with
  | c :: s' => if is_ws c then skip_ws s' else s
  | [] => []
  end.

Definition hex_value (c : N) : option N :=
  if (48 <=? c) && (c <=? 57) then Some (c - 48)
  else if (97 <=? c) && (c <=? 102) then Some (c - 87)
  else if (65 <=? c) && (c <=? 70) then Some (c - 55)
  else None.

(** [_decode_uXXXX]: the four characters after [\u], read in base 16. *)
Definition decode_uXXXX (a b c d : N) : option N :=
  match hex_value a, hex_value b, hex_value c, hex_value d with
  | Some x3, Some x2, Some x1, Some x0 => Some (((x3 * 16 + x2) * 16 + x1) * 16 + x0)
  | _, _, _, _ => None
  end.

(** [BACKSLASH]: the one-letter escapes. *)
Definition backslash_escape (e : N) : option N :=
  if e =? QUOTE then Some QUOTE
  else if e =? BACKSLASH then Some BACKSLASH
  else if e =? 47 then Some 47
  else if e =? 98 then Some 8
  else if e =? 102 then Some 12
  else if e =? 110 then Some 10
  else if e =? 114 then Some 13
  else if e =? 116 then Some 9
  else None.

Definition is_high_surrogate (c : N) : bool := (55296 <=? c) && (c <=? 56319).
Definition is_low_surrogate (c : N) : bool := (56320 <=? c) && (c <=? 57343).

(** [0x10000 + (((uni - 0xd800) << 10) | (uni2 - 0xdc00))]. *)
Definition join_surrogates (uni uni2 : N) : N :=
  65536 + N.lor (N.shiftl (uni - 55296) 10) (uni2 - 56320).

(** [scanstring(s, end, strict=True)], entered after the opening quote: the
    decoded string and the text after the closing quote.  A control character
    is refused; a [\uXXXX] high surrogate directly followed by a [\uXXXX] low
    surrogate is read as one code point. *)
Fixpoint scanstring (s : str) : result (str * str) :=
  match s with
  | [] => Raise JSONDecodeError
  | c :: r =>
      if c =? QUOTE then Ok ([], r)
      else if c =? BACKSLASH then
        match r with
        | [] => Raise JSONDecodeError
        | e :: r1 =>
            if e =? 117 then
              match r1 with
              | h1 :: h2 :: h3 :: h4 :: r5 =>
                  match decode_uXXXX h1 h2 h3 h4 with
                  | None => Raise JSONDecodeError
                  | Some uni =>
                      let single :=
                        ' (t, rest) <- scanstring r5 ;; Ok (uni :: t, rest) in
                      if is_high_surrogate uni then
                        match r5 with
                        | b :: u :: k1 :: k2 :: k3 :: k4 :: r11 =>
                            if (b =? BACKSLASH) && (u =? 117) then
                              match decode_uXXXX k1 k2 k3 k4 with
                              | None => Raise JSONDecodeError
                              | Some uni2 =>
                                  if is_low_surrogate uni2 then
                                    ' (t, rest) <- scanstring r11 ;;
                                    Ok (join_surrogates uni uni2 :: t, rest)
                                  else single
                              end
                            else single
                        | _ => single
                        end
                      else single
                  end
              | _ => Raise JSONDecodeError
              end
            else
              match backslash_escape e with
              | Some ch => ' (t, rest) <- scanstring r1 ;; Ok (ch :: t, rest)
              | None => Raise JSONDecodeError
              end
        end
      else if c <? 32 then Raise JSONDecodeError
      else ' (t, rest) <- scanstring r ;; Ok (c :: t, rest)
  end.

(** A group of [NUMBER_RE] that needs at least one digit after its
    [prefix]: the matched text and the rest, or nothing matched. *)
Definition digits_after (prefix s r : str) : str * str :=
  let '(d, r') := span_digits r in
  match d with
  | [] => ([], s)
  | _ :: _ => (prefix ++ d, r')
  end.

(** The optional [(\.\d+)] of [NUMBER_RE]. *)
Definition match_frac (s : str) : str * str :=
  match s with
  | c :: r => if c =? 46 then digits_after [c] s r else ([], s)
  | [] => ([], s)
  end.

(** The optional [([eE][-+]?\d+)] of [NUMBER_RE]. *)
Definition match_exp (s : str) : str * str :=
  match s with
  | c :: r =>
      if (c =? 101) || (c =? 69) then
        match r with
        | g :: r' =>
            if (g =? 45) || (g =? 43) then digits_after [c; g] s r'
            else digits_after [c] s r
        | [] => ([], s)
        end
      else ([], s)
  | [] => ([], s)
  end.

(** The integer group of [NUMBER_RE], an optional minus sign and then either
    a single zero or a non-zero digit with the digits after it: the sign, the
    digits, the rest. *)
Definition match_integer (s : str) : option (bool * str * str) :=
  let '(neg, s1) :=
    match s with
    | c :: r => if c =? MINUS then (true, r) else (false, s)
    | [] => (false, s)
    end in
  match s1 with
  | c :: r =>
      if c =? 48 then Some (neg, [c], r)
      else if is_digit c then
        let '(d, r') := span_digits r in Some (neg, c :: d, r')
      else None
  | [] => None
  end.

(** [match_number] and the conversion that follows it in [_scan_once]:
    [int(integer)] without fraction and exponent, a float otherwise. *)
Definition scan_number (s : str) : option (pyvalue * str) :=
  match match_integer s with
  | None => None
  | Some (neg, digits, r) =>
      let '(frac, r1) := match_frac r in
      let '(exp, r2) := match_exp r1 in
      match frac, exp with
      | [], [] =>
          let u := chars_uint digits in
          Some (PInt (Z.of_int (if neg then Decimal.Neg u else Decimal.Pos u)), r2)
      | _, _ =>
          Some (PFloat ((if neg then [MINUS] else []) ++ digits ++ frac ++ exp), r2)
      end
  end.

(** [d[k] = v] on a dictionary: an existing key keeps its place. *)
Fixpoint dict_set (k : str) (v : pyvalue) (d : list (str * pyvalue))
  : list (str * pyvalue) :=
  match d with
  | [] => [(k, v)]
  | (k', v') :: d' =>
      if str_eqb k k' then (k', v) :: d' else (k', v') :: dict_set k v d'
  end.

(** [dict(pairs)]. *)
Definition dict_of_pairs (pairs : list (str * pyvalue)) : list (str * pyvalue) :=
  fold_left (fun d kv => dict_set (fst kv) (snd kv) d) pairs [].

(** [_scan_once], [JSONArray] and [JSONObject].  [fuel] bounds the depth of
    the calls, as the interpreter's recursion limit does; [array_items] and
    [object_items] are the two [while True] loops, entered at a value and
    after the opening quote of a key. *)
Fixpoint scan_once (fuel : nat) (s : str) : result (pyvalue * str) :=
  match fuel with
  | O => Raise RecursionError
  | S f =>
      match s with
      | [] => Raise JSONDecodeError
      | c :: r =>
          if c =? QUOTE then
            ' (t, rest) <- scanstring r ;; Ok (PStr t, rest)
          else if c =? LBRACE then
            match skip_ws r with
            | c' :: r' =>
                if c' =? RBRACE then Ok (PDict [], r')
                else if c' =? QUOTE then
                  ' (pairs, rest) <- object_items f r' ;;
                  Ok (PDict (dict_of_pairs pairs), rest)
                else Raise JSONDecodeError
            | [] => Raise JSONDecodeError
            end
          else if c =? LBRACKET then
            match skip_ws r with
            | c' :: r' =>
                if c' =? RBRACKET then Ok (PList [], r')
                else
                  ' (values, rest) <- array_items f (c' :: r') ;;
                  Ok (PList values, rest)
            | [] => Raise JSONDecodeError
            end
          else if startswith (lit "null") s then Ok (PNone, skipn 4 s)
          else if startswith (lit "true") s then Ok (PBool true, skipn 4 s)
          else if startswith (lit "false") s then Ok (PBool false, skipn 5 s)
          else
            match scan_number s with
            | Some res => Ok res
            | None =>
                if startswith (lit "NaN") s
                then Ok (PFloat (lit "NaN"), skipn 3 s)
                else if startswith (lit "Infinity") s
                then Ok (PFloat (lit "Infinity"), skipn 8 s)
                else if startswith (lit "-Infinity") s
                then Ok (PFloat (lit "-Infinity"), skipn 9 s)
                else Raise JSONDecodeError
            end
      end
  end

with array_items (fuel : nat) (s : str) : result (list pyvalue * str) :=
  match fuel with
  | O => Raise RecursionError
  | S f =>
      ' (value, r) <- scan_once f s ;;
      match skip_ws r with
      | c :: r' =>
          if c =? RBRACKET then Ok ([value], r')
          else if c =? COMMA then
            ' (values, rest) <- array_items f (skip_ws r') ;;
            Ok (value :: values, rest)
          else Raise JSONDecodeError
      | [] => Raise JSONDecodeError
      end
  end

with object_items (fuel : nat) (s : str) : result (list (str * pyvalue) * str) :=
  match fuel with
  | O => Raise RecursionError
  | S f =>
      ' (key, r) <- scanstring s ;;
      match skip_ws r with
      | c :: r1 =>
          if c =? COLON then
            ' (value, r2) <- scan_once f (skip_ws r1) ;;
            match skip_ws r2 with
            | c' :: r3 =>
                if c' =? RBRACE then Ok ([(key, value)], r3)
                else if c' =? COMMA then
                  match skip_ws r3 with
                  | q :: r4 =>
                      if q =? QUOTE then
                        ' (pairs, rest) <- object_items f r4 ;;
                        Ok ((key, value) :: pairs, rest)
                      else Raise JSONDecodeError
                  | [] => Raise JSONDecodeError
                  end
                else Raise JSONDecodeError
            | [] => Raise JSONDecodeError
            end
          else Raise JSONDecodeError
      | [] => Raise JSONDecodeError
      end
  end.

(** [JSONDecoder.decode]: one value between optional whitespace, and nothing
    after it ("Extra data" otherwise).  The depth allowed grows with the
    text, twice its length; [JsonFacts.cost_le_length] shows that this is
    enough for every text the encoder writes. *)
Definition json_loads (s : str) : result pyvalue :=
  ' (obj, r) <- scan_once (2 * List.length s + 2)%nat (skip_ws s) ;;
  match skip_ws r with
  | [] => Ok obj
  | _ :: _ => Raise JSONDecodeError
  end.

End JsonDecoder.
Export JsonDecoder.

(* ================================================================== *)
(** ** The store and its operations *)
(* ================================================================== *)

(** A book record: the dictionary [add_book] appends, field by field. *)
Record book : Type := Book {
  id : Z;
  title : str;
  author : str;
  publication_year : Z;
  genre : str;
  read_status : bool
}.

(** The dictionary literal of [add_book], keys in the order of the source. *)
Definition dict_of_book (b : book) : pyvalue :=
  PDict [ (lit "id", PInt (id b));
          (lit "title", PStr (title b));
          (lit "author", PStr (author b));
          (lit "publication_year", PInt (publication_year b));
          (lit "genre", PStr (genre b));
          (lit "read_status", PBool (read_status b)) ].

(** [st.session_state.library] as the Python value it is. *)
Definition library_value (books : list book) : pyvalue :=
  PList (List.map dict_of_book books).

(** The session's library together with the contents of [LIBRARY_FILE]
    ([None] while the file does not exist). *)
Record state : Type := State {
  library : list book;
  library_file : option str
}.

Definition empty_state : state := State [] None.

(** [save_library_to_file()]: the file is opened with ["w"] and receives
    [json.dump(st.session_state.library, f, indent=4)]. *)
Definition save_library_to_file (st : state) : state :=
  State (library st) (Some (json_dumps (library_value (library st)))).

(** [add_book(title, author, publication_year, genre, read_status)]. *)
Definition add_book (title author : str) (publication_year : Z) (genre : str)
    (read_status : bool) (st : state) : state :=
  let book_id := (Z.of_nat (List.length (library st)) + 1)%Z in
  save_library_to_file
    (State (library st ++
              [Book book_id title author publication_year genre read_status])
           (library_file st)).

(** [remove_book(book_id)]: the list comprehension keeps the books whose id
    differs. *)
Definition remove_book (book_id : Z) (st : state) : state :=
  save_library_to_file
    (State (List.filter (fun book => negb (id book =? book_id)%Z) (library st))
           (library_file st)).

Section Search.

(** [str.lower]: Python's Unicode lowercasing, which the search only applies
    and compares; it is a parameter here. *)
Variable lower : str -> str.

(** The test of the first comprehension of [search_books]. *)
Definition term_matches (term : str) (book : book) : bool :=
  contains term (lower (title book)) ||
  contains term (lower (author book)) ||
  contains term (lower (genre book)) ||
  contains term (int_str (publication_year book)).

(** [search_books(books, search_term, genre_filter, read_status_filter)]. *)
Definition search_books (books : list book)
    (search_term genre_filter read_status_filter : str) : list book :=
  let filtered := books in
  let term := lower search_term in
  let filtered :=
    match search_term with
    | _ :: _ => List.filter (term_matches term) filtered
    | [] => filtered
    end in
  let filtered :=
    if negb (str_eqb genre_filter (lit "All"))
    then List.filter
           (fun book => str_eqb (lower (genre book)) (lower genre_filter))
           filtered
    else filtered in
  let filtered :=
    if negb (str_eqb read_status_filter (lit "All"))
    then
      let read_status_bool := str_eqb read_status_filter (lit "Read") in
      List.filter (fun book => Bool.eqb (read_status book) read_status_bool)
                  filtered
    else filtered in
  filtered.

End Search.

(** Lowercasing of the ASCII letters, on which [str.lower] agrees with it;
    used to run the search on examples. *)
Definition ascii_lower (s : str) : str :=
  List.map (fun c => if (65 <=? c)%N && (c <=? 90)%N then (c + 32)%N else c) s.

(** A Python number: [get_statistics] returns the [int] 0 or a [float]. *)
Inductive number : Type :=
| Int : Z -> number
| Float : float -> number.

(** [float(n)] for a count; exact below [2^53], which the length of a list in
    memory always is. *)
Definition float_of_count (n : nat) : float :=
  PrimFloat.of_uint63 (Uint63.of_Z (Z.of_nat n)).

(** [sum(1 for book in library if book["read_status"])]. *)
Definition read_count (books : list book) : nat :=
  fold_left (fun acc book => if read_status book then acc + 1 else acc)%nat
            books 0%nat.

(** [get_statistics()]: true division, then the product by 100. *)
Definition get_statistics (st : state) : nat * number :=
  let total_books := List.length (library st) in
  let read_books := read_count (library st) in
  let percentage_read :=
    if (0 <? total_books)%nat
    then Float (PrimFloat.mul
                  (PrimFloat.div (float_of_count read_books)
                                 (float_of_count total_books))
                  (float_of_count 100))
    else Int 0 in
  (total_books, percentage_read).

(** The start of a run: the library is loaded only when the session has
    none; when the file exists it is whatever [json.load] returns, and an
    exception of [json.load] is not caught. *)
Definition startup (session : option pyvalue) (file : option str)
  : result pyvalue :=
  match session with
  | Some lib => Ok lib
  | None =>
      match file with
      | Some content => json_loads content
      | None => Ok (PList [])
      end
  end.

(** The two mutating actions of the menu, and a session as the sequence of
    actions submitted. *)
Inductive action : Type :=
| AddBook (title author : str) (publication_year : Z) (genre : str)
          (read_status : bool)
| RemoveBook (book_id : Z).

Definition perform (st : state) (a : action) : state :=
  match a with
  | AddBook t a y g r => add_book t a y g r st
  | RemoveBook i => remove_book i st
  end.

Definition run (actions : list action) (st : state) : state :=
  fold_left perform actions st.

(* ================================================================== *)
(** ** The menus *)
(* ================================================================== *)

(** [f"{book['id']} - {book['title']}"]. *)
Definition book_label (b : book) : str :=
  int_str (id b) ++ lit " - " ++ title b.

Section Dict.

Variable V : Type.

(** [d[k] = v]: an existing key keeps its place and takes the new value. *)
Fixpoint dict_put (k : str) (v : V) (d : list (str * V)) : list (str * V) :=
  match d with
  | [] => [(k, v)]
  | (k', v') :: d' =>
      if str_eqb k k' then (k', v) :: d' else (k', v') :: dict_put k v d'
  end.

(** [d[k]]; [None] stands for [KeyError]. *)
Fixpoint dict_get (k : str) (d : list (str * V)) : option V :=
  match d with
  | [] => None
  | (k', v) :: d' => if str_eqb k k' then Some v else dict_get k d'
  end.

End Dict.
Arguments dict_put {V} k v d.
Arguments dict_get {V} k d.

(** The dictionary comprehension of the Remove page: label to id, the books
    taken in the order of the library. *)
Definition book_options (books : list book) : list (str * Z) :=
  fold_left (fun d book => dict_put (book_label book) (id book) d) books [].

(** [list(book_options.keys())], what the select box offers. *)
Definition option_labels (books : list book) : list str :=
  List.map fst (book_options books).

(** The Remove button: [remove_book(book_options[selected])]. *)
Definition remove_selected (selected : str) (st : state) : option state :=
  match dict_get selected (book_options (library st)) with
  | Some book_id => Some (remove_book book_id st)
  | None => None
  end.

(** [{book["genre"] for book in library if book["genre"]}] as a list.  The
    order of a Python set is not specified; the genres come here in the order
    of their first book, and nothing below depends on it. *)
Definition genres (books : list book) : list str :=
  fold_left
    (fun seen book =>
       match genre book with
       | [] => seen
       | _ :: _ =>
           if existsb (str_eqb (genre book)) seen then seen
           else seen ++ [genre book]
       end)
    books [].

(** [["All"] + genres], the options of the genre filter. *)
Definition genre_filter_options (books : list book) : list str :=
  lit "All" :: genres books.

(* ================================================================== *)
(** ** Vocabulary of the specification *)
(* ================================================================== *)

(** *** Removal *)

(** The number of records of [l] whose id is [i]. *)
Definition count_id (i : Z) (l : list book) : nat :=
  List.length (List.filter (fun b => (id b =? i)%Z) l).

(** The test of the comprehension in [remove_book]. *)
Definition other_id (i : Z) (b : book) : bool := negb (id b =? i)%Z.

(** [r] is [l] without its records of id [i], the others in their order. *)
Inductive without_id (i : Z) : list book -> list book -> Prop :=
| without_nil : without_id i [] []
| without_drop b l r :
    id b = i -> without_id i l r -> without_id i (b :: l) r
| without_keep b l r :
    id b <> i -> without_id i l r -> without_id i (b :: l) (b :: r).

(** *** Additions *)

(** The action adds a book. *)
Definition is_add (a : action) : Prop :=
  match a with
  | AddBook _ _ _ _ _ => True
  | RemoveBook _ => False
  end.

(** The ids the first [n] additions to an empty store receive. *)
Definition first_ids (n : nat) : list Z := List.map Z.of_nat (seq 1 n).

(** *** Search *)

(** [t] occurs in [s]. *)
Definition substring (t s : str) : Prop :=
  exists pre post, s = pre ++ t ++ post.

Section SearchCriteria.

Variable lower : str -> str.

(** The three criteria in the words of the specification. *)
Definition search_criteria (term genre_filter read_status_filter : str)
    (b : book) : Prop :=
  (term <> [] ->
     substring (lower term) (lower (title b)) \/
     substring (lower term) (lower (author b)) \/
     substring (lower term) (lower (genre b)) \/
     substring (lower term) (int_str (publication_year b))) /\
  (genre_filter <> lit "All" -> lower (genre b) = lower genre_filter) /\
  (read_status_filter <> lit "All" ->
     (read_status b = true <-> read_status_filter = lit "Read")).

(** The same criteria as one test. *)
Definition meets_criteria (term genre_filter read_status_filter : str)
    (b : book) : bool :=
  match term with
  | [] => true
  | _ :: _ => term_matches lower (lower term) b
  end &&
  (str_eqb genre_filter (lit "All") ||
   str_eqb (lower (genre b)) (lower genre_filter)) &&
  (str_eqb read_status_filter (lit "All") ||
   Bool.eqb (read_status b) (str_eqb read_status_filter (lit "Read"))).

End SearchCriteria.

(** *** Statistics *)

(** The records marked read. *)
Definition read_books (books : list book) : list book :=
  List.filter read_status books.

(** [read / total * 100] in floating point. *)
Definition percent (read total : nat) : float :=
  PrimFloat.mul
    (PrimFloat.div (float_of_count read) (float_of_count total))
    100%float.

(** *** Persistence *)

(** A Unicode scalar value: a code point that is no surrogate. *)
Definition scalar (c : N) : bool :=
  (c <? 55296)%N || ((57344 <=? c)%N && (c <? 1114112)%N).

(** Unicode text: what a form field or a decoded file holds. *)
Definition text_ok (s : str) : bool := forallb scalar s.

(** A valid record: its three strings are Unicode text. *)
Definition valid_book (b : book) : bool :=
  text_ok (title b) && text_ok (author b) && text_ok (genre b).

(** No key occurs twice. *)
Fixpoint distinct (ks : list str) : bool :=
  match ks with
  | [] => true
  | k :: ks' => negb (existsb (str_eqb k) ks') && distinct ks'
  end.

(** The values whose JSON text reads back as themselves: no float, Unicode
    text for strings and keys, distinct keys in every dictionary. *)
Fixpoint json_ok (v : pyvalue) : bool :=
  match v with
  | PNone | PBool _ | PInt _ => true
  | PFloat _ => false
  | PStr s => text_ok s
  | PList l => forallb json_ok l
  | PDict kvs =>
      forallb (fun kv => text_ok (fst kv) && json_ok (snd kv)) kvs &&
      distinct (List.map fst kvs)
  end.

(** A depth of calls that suffices to scan the text of [v]. *)
Fixpoint cost (v : pyvalue) : nat :=
  match v with
  | PList l => S (list_sum (List.map (fun x => S (cost x)) l))
  | PDict kvs => S (list_sum (List.map (fun kv => S (cost (snd kv))) kvs))
  | _ => 1
  end.

(** Induction on values, through the lists of items. *)
Section PyvalueInduction.

Variable P : pyvalue -> Prop.
Hypothesis HNone : P PNone.
Hypothesis HBool : forall b, P (PBool b).
Hypothesis HInt : forall z, P (PInt z).
Hypothesis HFloat : forall l, P (PFloat l).
Hypothesis HStr : forall s, P (PStr s).
Hypothesis HList : forall l, Forall P l -> P (PList l).
Hypothesis HDict :
  forall kvs, Forall (fun kv => P (snd kv)) kvs -> P (PDict kvs).

Fixpoint pyvalue_ind (v : pyvalue) : P v :=
  match v with
  | PNone => HNone
  | PBool b => HBool b
  | PInt z => HInt z
  | PFloat l => HFloat l
  | PStr s => HStr s
  | PList l =>
      HList l (list_ind (Forall P) (Forall_nil P)
                 (fun x _ IH => Forall_cons x (pyvalue_ind x) IH) l)
  | PDict kvs =>
      HDict kvs (list_ind (Forall (fun kv => P (snd kv))) (Forall_nil _)
                   (fun kv _ IH =>
                      Forall_cons (P := fun kv => P (snd kv)) kv
                        (pyvalue_ind (snd kv)) IH) kvs)
  end.

End PyvalueInduction.

(** What may follow a number: nothing that [NUMBER_RE] would still match. *)
Definition number_end (r : str) : bool :=
  match r with
  | [] => true
  | c :: _ =>
      negb (is_digit c) && negb (c =? 46)%N && negb (c =? 101)%N &&
      negb (c =? 69)%N
  end.

(** A first character of a number. *)
Definition number_start (c : N) : bool := is_digit c || (c =? MINUS)%N.

(** The digits of [str(n)]: a lone zero, or no leading zero. *)
Definition canonical (u : Decimal.uint) : Prop :=
  match u with
  | Decimal.Nil => False
  | Decimal.D0 Decimal.Nil => True
  | Decimal.D0 _ => False
  | _ => True
  end.

(** [v] written at any level and followed by [r] is read back, with [r]
    left over. *)
Definition decodes (v : pyvalue) : Prop :=
  forall lvl f r,
    cost v <= f -> number_end r = true ->
    scan_once f (iterencode lvl v ++ r) = Ok (v, r).

(** The text after the first item of a list, up to [r]. *)
Definition list_tail (lvl : nat) (xs : list pyvalue) (r : str) : str :=
  flat_map
    (fun y => COMMA :: newline_indent (S lvl) ++ iterencode (S lvl) y) xs ++
  newline_indent lvl ++ RBRACKET :: r.

(** An item of a dictionary after the opening quote of its key. *)
Definition encode_item (lvl : nat) (ky : str * pyvalue) : str :=
  encode_chars (fst ky) ++
  QUOTE :: COLON :: SPACE :: iterencode (S lvl) (snd ky).

(** The text after the first item of a dictionary, up to [r]. *)
Definition dict_tail (lvl : nat) (kvs : list (str * pyvalue)) (r : str)
  : str :=
  flat_map
    (fun ky => COMMA :: newline_indent (S lvl) ++ QUOTE :: encode_item lvl ky)
    kvs ++
  newline_indent lvl ++ RBRACE :: r.

(** *** Example data *)

(** The session of the design note: three books added, the one with id 2
    removed, a fourth added. *)
Definition colliding_session : list action :=
  [ AddBook (lit "Dune") (lit "Herbert") 1965 (lit "SF") true;
    AddBook (lit "Emma") (lit "Austen") 1815 (lit "Novel") false;
    AddBook (lit "Ulysses") (lit "Joyce") 1922 (lit "Novel") false;
    RemoveBook 2;
    AddBook (lit "Walden") (lit "Thoreau") 1854 (lit "Essay") true ].

(** Two additions. *)
Definition two_additions : list action :=
  [ AddBook (lit "Dune") (lit "Herbert") 1965 (lit "SF") true;
    AddBook (lit "Emma") (lit "Austen") 1815 (lit "Novel") false ].

(** A store of four books, the second one read, not yet saved. *)
Definition four_books : state :=
  State [ Book 1 (lit "Dune") (lit "Herbert") 1965 (lit "SF") false;
          Book 2 (lit "Emma") (lit "Austen") 1815 (lit "Novel") true;
          Book 3 (lit "Ulysses") (lit "Joyce") 1922 (lit "Novel") false;
          Book 4 (lit "Walden") (lit "Thoreau") 1854 (lit "Essay") false ]
        None.

(** *** Sessions *)

(** The strings an action brings into the store are Unicode text. *)
Definition valid_action (a : action) : bool :=
  match a with
  | AddBook t au _ g _ => text_ok t && text_ok au && text_ok g
  | RemoveBook _ => true
  end.

(** The number of additions in a session. *)
Definition count_adds (actions : list action) : nat :=
  List.length
    (List.filter
       (fun a => match a with AddBook _ _ _ _ _ => true | RemoveBook _ => false end)
       actions).

(** [r] is [l] with some elements left out, the others in their order. *)
Inductive subseq {A : Type} : list A -> list A -> Prop :=
| subseq_nil : subseq [] []
| subseq_skip x l r : subseq r l -> subseq r (x :: l)
| subseq_take x l r : subseq r l -> subseq (x :: r) (x :: l).

(** Every character is ASCII. *)
Definition ascii_only (s : str) : Prop := Forall (fun c => (c < 128)%N) s.

(** Three additions. *)
Definition three_additions : list action :=
  [ AddBook (lit "Dune") (lit "Herbert") 1965 (lit "SF") true;
    AddBook (lit "Emma") (lit "Austen") 1815 (lit "Novel") false;
    AddBook (lit "Ulysses") (lit "Joyce") 1922 (lit "Novel") false ].

(* ================================================================== *)
(** ** Removing books *)
(* ================================================================== *)

Section Remove.

Implicit Types (st : state) (i : Z) (b : book) (l : list book).

Lemma other_id_true i b : other_id i b = true <-> id b <> i.
Proof.
  unfold other_id. rewrite negb_true_iff, Z.eqb_neq. tauto.
Qed.

Lemma library_remove_book i st :
  library (remove_book i st) = List.filter (other_id i) (library st).
Proof. reflexivity. Qed.

Lemma filter_other_id_absent i l :
  (forall b, In b l -> id b <> i) -> List.filter (other_id i) l = l.
Proof.
  induction l as [|b l IH]; intros H; simpl; [reflexivity|].
  assert (Hb : other_id i b = true) by (apply other_id_true, H; now left).
  rewrite Hb, IH; [reflexivity|].
  intros b' Hin. apply H. now right.
Qed.

Lemma filter_other_id_without i l : without_id i l (List.filter (other_id i) l).
Proof.
  induction l as [|b l IH]; simpl; [constructor|].
  destruct (other_id i b) eqn:E.
  - apply without_keep; [now apply other_id_true|exact IH].
  - apply without_drop; [|exact IH].
    unfold other_id in E. apply negb_false_iff in E. now apply Z.eqb_eq.
Qed.

Lemma filter_other_id_In i l b :
  In b (List.filter (other_id i) l) <-> In b l /\ id b <> i.
Proof. rewrite filter_In, other_id_true. tauto. Qed.

(** A list with exactly one record of id [i] splits around it. *)
Lemma count_id_one_split i l :
  count_id i l = 1 ->
  exists before x after,
    l = before ++ x :: after /\ id x = i /\
    (forall b, In b before -> id b <> i) /\
    (forall b, In b after -> id b <> i).
Proof.
  unfold count_id. induction l as [|a l IH]; simpl; [discriminate|].
  destruct (id a =? i)%Z eqn:E; simpl; intros H.
  - exists [], a, l. repeat split.
    + now apply Z.eqb_eq.
    + intros b [].
    + intros b Hin Hid.
      assert (Hin' : In b (List.filter (fun b => (id b =? i)%Z) l)).
      { apply filter_In. split; [exact Hin|]. now apply Z.eqb_eq. }
      injection H as H. apply length_zero_iff_nil in H.
      rewrite H in Hin'. destruct Hin'.
  - destruct (IH H) as (before & x & after & Hl & Hx & Hb & Ha).
    exists (a :: before), x, after. repeat split.
    + simpl. now rewrite Hl.
    + exact Hx.
    + intros b [<-|Hin]; [now apply Z.eqb_neq|now apply Hb].
    + exact Ha.
Qed.

End Remove.

(** C1.  When exactly one record of the store has id [i], [remove_book i]
    removes that record, the first whose id matches: the store splits around
    it as [before ++ x :: after] with no id [i] in [before], the new store is
    [before ++ after] (every other record unchanged, in the same order), one
    record shorter, and holds no record of id [i]. *)
Theorem remove_book_unique_id (st : state) (i : Z) :
  count_id i (library st) = 1 ->
  exists before x after,
    library st = before ++ x :: after /\
    id x = i /\
    (forall b, In b before -> id b <> i) /\
    library (remove_book i st) = before ++ after /\
    List.length (library (remove_book i st)) + 1 = List.length (library st) /\
    (forall b, In b (library (remove_book i st)) -> id b <> i) /\
    ~ In x (library (remove_book i st)).
Proof.
  intros H.
  destruct (count_id_one_split _ _ H) as (before & x & after & Hl & Hx & Hb & Ha).
  exists before, x, after.
  assert (Hr : library (remove_book i st) = before ++ after).
  { rewrite library_remove_book, Hl, filter_app. simpl.
    assert (E : other_id i x = false).
    { unfold other_id. apply negb_false_iff. now apply Z.eqb_eq. }
    rewrite E, (filter_other_id_absent _ _ Hb), (filter_other_id_absent _ _ Ha).
    reflexivity. }
  assert (Hno : forall b, In b (library (remove_book i st)) -> id b <> i).
  { intros b Hin. rewrite library_remove_book in Hin.
    now apply filter_other_id_In in Hin. }
  repeat split; try assumption.
  - rewrite Hr, Hl, !length_app. simpl. lia.
  - intros Hin. exact (Hno x Hin Hx).
Qed.

(** [remove_book_unique_id] on the store of four books, for the id 2. *)
Lemma remove_book_unique_id_witness :
  count_id 2 (library four_books) = 1 /\
  exists before x after,
    library four_books = before ++ x :: after /\
    id x = 2%Z /\
    (forall b, In b before -> id b <> 2%Z) /\
    library (remove_book 2 four_books) = before ++ after /\
    List.length (library (remove_book 2 four_books)) + 1 =
      List.length (library four_books) /\
    (forall b, In b (library (remove_book 2 four_books)) -> id b <> 2%Z) /\
    ~ In x (library (remove_book 2 four_books)).
Proof.
  split; [reflexivity|].
  exact (remove_book_unique_id four_books 2 eq_refl).
Defined.

(** C8.  When no record of the store has id [i], [remove_book i] returns
    normally with the store's contents unchanged, and the backing file holds
    the full serialization of that store, whatever it held before. *)
Theorem remove_book_absent_id (st : state) (i : Z) :
  (forall b, In b (library st) -> id b <> i) ->
  library (remove_book i st) = library st /\
  library_file (remove_book i st) =
    Some (json_dumps (library_value (library st))) /\
  remove_book i st = save_library_to_file st.
Proof.
  intros H.
  assert (E : library (remove_book i st) = library st).
  { rewrite library_remove_book. now apply filter_other_id_absent. }
  split; [exact E|].
  unfold remove_book, save_library_to_file in *. simpl in *.
  rewrite E. auto.
Qed.

(** [remove_book_absent_id] on the store of four books, for the id 9. *)
Lemma four_books_no_id_9 b : In b (library four_books) -> id b <> 9%Z.
Proof.
  cbn [library four_books In].
  intros [<-|[<-|[<-|[<-|[]]]]]; cbn [id]; discriminate.
Defined.

(** The store is unchanged and saved. *)
Lemma remove_book_absent_id_witness :
  library (remove_book 9 four_books) = library four_books /\
  library_file (remove_book 9 four_books) =
    Some (json_dumps (library_value (library four_books))) /\
  remove_book 9 four_books = save_library_to_file four_books.
Proof.
  exact (remove_book_absent_id four_books 9 four_books_no_id_9).
Defined.

(** C10.  For every store and every id [i], also when several records share
    it, [remove_book i] removes every record of id [i]: the new store is the
    old one without them ([without_id]), the survivors in their order; it
    holds no record of id [i], and exactly the other records. *)
Theorem remove_book_all_matches (st : state) (i : Z) :
  without_id i (library st) (library (remove_book i st)) /\
  (forall b, In b (library (remove_book i st)) -> id b <> i) /\
  (forall b, In b (library st) -> id b <> i ->
             In b (library (remove_book i st))) /\
  List.length (library (remove_book i st)) + count_id i (library st) =
    List.length (library st).
Proof.
  rewrite library_remove_book. repeat split.
  - apply filter_other_id_without.
  - intros b Hin. now apply filter_other_id_In in Hin.
  - intros b Hin Hid. apply filter_other_id_In. now split.
  - unfold count_id, other_id.
    induction (library st) as [|b l IH]; simpl; [reflexivity|].
    destruct (id b =? i)%Z; simpl; lia.
Qed.

(* ================================================================== *)
(** ** Identifiers *)
(* ================================================================== *)

Lemma library_add_book t a y g r st :
  library (add_book t a y g r st) =
  library st ++ [Book (Z.of_nat (List.length (library st)) + 1) t a y g r].
Proof. reflexivity. Qed.

(** C3.  Unique ids are not an invariant of the store.  [add_book] gives the
    new record the id [length + 1]; and there is a sequence of additions and
    removals from the empty store (the one of the design note) after which
    two different records, at two positions, carry the same id, so that the
    ids of the store have a repetition. *)
Theorem id_uniqueness_not_invariant :
  (forall t a y g r st,
      exists b,
        library (add_book t a y g r st) = library st ++ [b] /\
        id b = (Z.of_nat (List.length (library st)) + 1)%Z) /\
  exists actions,
    let st := run actions empty_state in
    List.map id (library st) = [1; 3; 3]%Z /\
    ~ NoDup (List.map id (library st)) /\
    exists j k b1 b2,
      j <> k /\
      nth_error (library st) j = Some b1 /\
      nth_error (library st) k = Some b2 /\
      b1 <> b2 /\ id b1 = id b2.
Proof.
  split.
  - intros t a y g r st. eexists. split; [apply library_add_book|reflexivity].
  - exists colliding_session.
    assert (E : library (run colliding_session empty_state) =
                [ Book 1 (lit "Dune") (lit "Herbert") 1965 (lit "SF") true;
                  Book 3 (lit "Ulysses") (lit "Joyce") 1922 (lit "Novel") false;
                  Book 3 (lit "Walden") (lit "Thoreau") 1854 (lit "Essay") true ])
      by (vm_compute; reflexivity).
    cbv zeta. rewrite E. split; [reflexivity|]. split.
    + simpl. intros H. inversion H as [|? ? _ H']. subst.
      inversion H' as [|? ? Hin _]. subst. apply Hin. now left.
    + exists 1%nat, 2%nat. do 2 eexists.
      split; [discriminate|].
      split; [reflexivity|]. split; [reflexivity|].
      split; [discriminate|reflexivity].
Qed.

(** [add_book] appends one record, numbered after the length of the store,
    leaves the records before it in place, and saves the new store. *)
Theorem add_book_appends t a y g r (st : state) :
  let st' := add_book t a y g r st in
  let n := List.length (library st) in
  List.length (library st') = S n /\
  nth_error (library st') n = Some (Book (Z.of_nat n + 1) t a y g r) /\
  (forall k b, nth_error (library st) k = Some b ->
               nth_error (library st') k = Some b) /\
  library_file st' = Some (json_dumps (library_value (library st'))).
Proof.
  cbv zeta. rewrite library_add_book. repeat split.
  - rewrite length_app. cbn [List.length]. lia.
  - rewrite nth_error_app2 by lia. now rewrite Nat.sub_diag.
  - intros k b H. rewrite nth_error_app1; [exact H|].
    apply nth_error_Some. congruence.
Qed.

Lemma ids_run_adds actions :
  Forall is_add actions ->
  forall st,
    List.map id (library (run actions st)) =
    List.map id (library st) ++
    List.map Z.of_nat
      (seq (List.length (library st) + 1) (List.length actions)).
Proof.
  induction 1 as [|a actions Ha _ IH]; intros st.
  - cbn. now rewrite List.app_nil_r.
  - destruct a as [t au y g r|i]; [|destruct Ha].
    change (run (AddBook t au y g r :: actions) st)
      with (run actions (add_book t au y g r st)).
    rewrite IH, library_add_book, map_app, length_app, <- List.app_assoc.
    cbn [List.map List.length seq id app]. do 2 f_equal.
    + lia.
    + now rewrite Nat.add_1_r.
Qed.


Lemma two_additions_are_adds : Forall is_add two_additions.
Proof. repeat constructor. Defined.


(* ================================================================== *)
(** ** Search *)
(* ================================================================== *)

Lemma str_eqb_eq a b : str_eqb a b = true <-> a = b.
Proof.
  revert b. induction a as [|x a IH]; intros [|y b]; simpl;
    try (split; [discriminate|discriminate]); [tauto|].
  rewrite andb_true_iff, N.eqb_eq, IH. split.
  - intros [-> ->]. reflexivity.
  - intros E. injection E as -> ->. auto.
Qed.

Lemma str_eqb_refl a : str_eqb a a = true.
Proof. now apply str_eqb_eq. Qed.

Lemma startswith_iff a b : startswith a b = true <-> exists post, b = a ++ post.
Proof.
  revert b. induction a as [|x a IH]; intros b; simpl.
  - split; [intros _; now exists b|reflexivity].
  - destruct b as [|y b].
    + split; [discriminate|]. intros [post E]. discriminate.
    + rewrite andb_true_iff, N.eqb_eq, IH. split.
      * intros [-> [post ->]]. now exists post.
      * intros [post E]. injection E as -> ->. split; [reflexivity|now exists post].
Qed.

(** [contains] decides occurrence. *)
Lemma contains_iff a b : contains a b = true <-> substring a b.
Proof.
  unfold substring. induction b as [|y b IH].
  - simpl. rewrite orb_false_r, startswith_iff. split.
    + intros [post E]. now exists [], post.
    + intros (pre & post & E). symmetry in E.
      apply app_eq_nil in E as [-> E]. now exists post.
  - cbn [contains]. rewrite orb_true_iff, startswith_iff, IH. split.
    + intros [[post E]|(pre & post & E)].
      * now exists [], post.
      * exists (y :: pre), post. simpl. now rewrite E.
    + intros (pre & post & E). destruct pre as [|z pre].
      * left. now exists post.
      * right. injection E as -> E. now exists pre, post.
Qed.

Section SearchFacts.

Variable lower : str -> str.

Lemma meets_criteria_iff term g r b :
  meets_criteria lower term g r b = true <-> search_criteria lower term g r b.
Proof.
  unfold meets_criteria, search_criteria, term_matches.
  rewrite !andb_true_iff, !orb_true_iff, !str_eqb_eq, eqb_true_iff.
  assert (Hterm :
    match term with
    | [] => true
    | _ :: _ =>
        contains (lower term) (lower (title b)) ||
        contains (lower term) (lower (author b)) ||
        contains (lower term) (lower (genre b)) ||
        contains (lower term) (int_str (publication_year b))
    end = true <->
    (term <> [] ->
     substring (lower term) (lower (title b)) \/
     substring (lower term) (lower (author b)) \/
     substring (lower term) (lower (genre b)) \/
     substring (lower term) (int_str (publication_year b)))).
  { destruct term as [|c term].
    - split; [intros _ H; now destruct H|reflexivity].
    - rewrite !orb_true_iff, !contains_iff. split.
      + intros H _. tauto.
      + intros H. assert (N : c :: term <> []) by discriminate.
        specialize (H N). tauto. }
  rewrite Hterm.
  assert (Hread : read_status b = str_eqb r (lit "Read") <->
                  (read_status b = true <-> r = lit "Read")).
  { rewrite <- str_eqb_eq.
    destruct (read_status b), (str_eqb r (lit "Read")); intuition congruence. }
  rewrite Hread.
  destruct (list_eq_dec N.eq_dec g (lit "All")) as [Hg|Hg];
    destruct (list_eq_dec N.eq_dec r (lit "All")) as [Hr|Hr]; tauto.
Qed.

Lemma filter_filter_andb (f g : book -> bool) l :
  List.filter g (List.filter f l) = List.filter (fun b => f b && g b) l.
Proof.
  induction l as [|b l IH]; simpl; [reflexivity|].
  destruct (f b); simpl; [|exact IH].
  destruct (g b); now rewrite IH.
Qed.

Lemma filter_true (f : book -> bool) l :
  (forall b, f b = true) -> List.filter f l = l.
Proof.
  intros H. induction l as [|b l IH]; simpl; [reflexivity|].
  now rewrite H, IH.
Qed.

(** The three passes of [search_books] are one pass with [meets_criteria]. *)
Lemma search_books_meets books term genre_filter read_status_filter :
  search_books lower books term genre_filter read_status_filter =
  List.filter (meets_criteria lower term genre_filter read_status_filter) books.
Proof.
  unfold search_books, meets_criteria.
  destruct term as [|c term];
    destruct (str_eqb genre_filter (lit "All"));
    destruct (str_eqb read_status_filter (lit "All")); cbn [negb orb andb];
    rewrite ?filter_filter_andb;
    first [ symmetry; apply filter_true; reflexivity
          | apply filter_ext; intros b;
            rewrite ?andb_true_r, ?andb_assoc; reflexivity ].
Qed.

Lemma contains_refl a : contains a a = true.
Proof.
  apply contains_iff. exists [], []. cbn [app]. now rewrite List.app_nil_r.
Qed.

End SearchFacts.

(** C4.  For every list of records and every term and filters,
    [search_books] returns exactly the records that satisfy the conjunction
    of the three criteria, in their order: the lowercased term, when the term
    is not empty, occurs in the lowercased title, author or genre or in the
    decimal form of the year; the lowercased genre equals the lowercased
    genre filter unless the filter is "All"; and, unless the status filter
    is "All", the record is read exactly when the filter is "Read". *)
Theorem search_books_criteria (lower : str -> str) (books : list book)
    (term genre_filter read_status_filter : str) :
  search_books lower books term genre_filter read_status_filter =
    List.filter (meets_criteria lower term genre_filter read_status_filter) books
  /\
  forall b,
    In b (search_books lower books term genre_filter read_status_filter) <->
    In b books /\ search_criteria lower term genre_filter read_status_filter b.
Proof.
  split; [apply search_books_meets|].
  intros b. rewrite search_books_meets, filter_In, meets_criteria_iff. tauto.
Qed.

(** C7.  With the empty term and both filters "All", [search_books] is the
    identity: it returns every record, unchanged and in the same order. *)
Theorem search_books_identity (lower : str -> str) (books : list book) :
  search_books lower books (lit "") (lit "All") (lit "All") = books.
Proof.
  unfold search_books.
  change (lit "") with (@nil N).
  rewrite (str_eqb_refl (lit "All")).
  reflexivity.
Qed.

(** The search ignores case: a record whose genre equals the term up to
    lowercasing is found, with both filters "All". *)
Theorem search_books_ignores_case (lower : str -> str) (books : list book)
    (b : book) (term : str) :
  In b books -> term <> [] -> lower term = lower (genre b) ->
  In b (search_books lower books term (lit "All") (lit "All")).
Proof.
  intros Hin Hterm Hlow.
  rewrite search_books_meets. apply filter_In. split; [exact Hin|].
  unfold meets_criteria, term_matches.
  destruct term as [|c term]; [now destruct Hterm|].
  rewrite Hlow, contains_refl, (str_eqb_refl (lit "All")).
  cbn [orb andb]. now rewrite !orb_true_r.
Qed.

(** The term fantasy finds the genre Fantasy. *)
Lemma search_books_ignores_case_witness :
  In (Book 7 (lit "Eragon") (lit "Paolini") 2002 (lit "Fantasy") false)
     (search_books ascii_lower
        [Book 7 (lit "Eragon") (lit "Paolini") 2002 (lit "Fantasy") false]
        (lit "fantasy") (lit "All") (lit "All")).
Proof.
  apply (search_books_ignores_case ascii_lower).
  - now left.
  - discriminate.
  - reflexivity.
Defined.

(* ================================================================== *)
(** ** Statistics *)
(* ================================================================== *)

Lemma read_count_fold books acc :
  fold_left (fun acc book => if read_status book then acc + 1 else acc)
            books acc =
  acc + List.length (read_books books).
Proof.
  revert acc. induction books as [|b l IH]; intros acc; simpl; [lia|].
  rewrite IH. destruct (read_status b); simpl; lia.
Qed.

Lemma read_count_length books :
  read_count books = List.length (read_books books).
Proof. unfold read_count. now rewrite read_count_fold. Qed.

(** C6.  For every store, [get_statistics] returns the number of records and
    the percentage read: the integer 0 when the store is empty (the division
    is guarded), and otherwise the float [read / total * 100], where [read]
    counts the records marked read.  In particular an empty store gives
    [(0, 0)], and a store of four books of which exactly one is read gives
    [(4, 25.0)]. *)
Theorem get_statistics_spec (st : state) :
  let total := List.length (library st) in
  let read := List.length (read_books (library st)) in
  get_statistics st =
    (total, if (total =? 0)%nat then Int 0 else Float (percent read total)) /\
  (total = 0 -> get_statistics st = (0, Int 0)) /\
  (total = 4 -> read = 1 -> get_statistics st = (4, Float 25%float)).
Proof.
  intros total read.
  assert (E : get_statistics st =
    (total, if (total =? 0)%nat then Int 0 else Float (percent read total))).
  { unfold get_statistics. rewrite read_count_length. fold total read.
    destruct total; reflexivity. }
  split; [exact E|]. split.
  - intros H. rewrite E, H. reflexivity.
  - intros H4 H1. rewrite E, H4, H1. vm_compute. reflexivity.
Qed.

(** The two stores of the specification's examples. *)
Lemma get_statistics_spec_witness :
  get_statistics empty_state = (0, Int 0) /\
  get_statistics four_books = (4, Float 25%float).
Proof.
  split.
  - exact (proj1 (proj2 (get_statistics_spec empty_state)) eq_refl).
  - exact (proj2 (proj2 (get_statistics_spec four_books)) eq_refl eq_refl).
Defined.

(* ================================================================== *)
(** ** The JSON text reads back *)
(* ================================================================== *)

Module JsonFacts.

Local Open Scope N_scope.

(** *** Strings *)

(** A hexadecimal digit reads back as its value. *)
Lemma hex_value_digit d : d < 16 -> hex_value (hex_digit d) = Some d.
Proof.
  intros H.
  assert (C : d = 0 \/ d = 1 \/ d = 2 \/ d = 3 \/ d = 4 \/ d = 5 \/ d = 6 \/
              d = 7 \/ d = 8 \/ d = 9 \/ d = 10 \/ d = 11 \/ d = 12 \/
              d = 13 \/ d = 14 \/ d = 15) by lia.
  repeat (destruct C as [->|C]; [reflexivity|]). subst. reflexivity.
Qed.

Lemma nibble_lt a : N.land a 15 < 16.
Proof.
  change 15 with (N.ones 4). rewrite N.land_ones. now apply N.mod_lt.
Qed.

(** The four digits [u_escape] writes are the base-16 digits of [n]. *)
Lemma nibbles_value n :
  n < 65536 ->
  ((N.land (N.shiftr n 12) 15 * 16 + N.land (N.shiftr n 8) 15) * 16 +
   N.land (N.shiftr n 4) 15) * 16 + N.land n 15 = n.
Proof.
  intros H. change 15 with (N.ones 4).
  rewrite !N.land_ones, !N.shiftr_div_pow2.
  change (2 ^ 12) with 4096. change (2 ^ 8) with 256. change (2 ^ 4) with 16.
  zify. Z.to_euclidean_division_equations. lia.
Qed.

Lemma land_pow2_low a b k : b < 2 ^ k -> N.land (a * 2 ^ k) b = 0.
Proof.
  intros H. apply N.bits_inj. intros i.
  rewrite N.land_spec, N.bits_0.
  destruct (N.lt_ge_cases i k) as [L|L].
  - now rewrite N.mul_pow2_bits_low.
  - rewrite <- (N.mod_small b (2 ^ k)) by exact H.
    rewrite N.mod_pow2_bits_high by exact L. apply andb_false_r.
Qed.

(** Setting bits below [2^k] in a multiple of [2^k] adds them. *)
Lemma lor_pow2_low a b k : b < 2 ^ k -> N.lor (a * 2 ^ k) b = a * 2 ^ k + b.
Proof.
  intros H. pose proof (land_pow2_low a b k H) as E.
  now rewrite N.add_nocarry_lxor, N.lxor_lor.
Qed.

(** [_decode_uXXXX] inverts [u_escape]. *)
Lemma u_escape_decode n :
  n < 65536 ->
  exists h1 h2 h3 h4,
    u_escape n = [BACKSLASH; 117; h1; h2; h3; h4] /\
    decode_uXXXX h1 h2 h3 h4 = Some n.
Proof.
  intros H. do 4 eexists. split; [reflexivity|].
  unfold decode_uXXXX.
  rewrite !hex_value_digit by apply nibble_lt.
  now rewrite nibbles_value.
Qed.

(** The cases of [scanstring], as equations. *)
Lemma scanstring_plain c X :
  c <> QUOTE -> c <> BACKSLASH -> 32 <= c ->
  scanstring (c :: X) = ' (t, rest) <- scanstring X ;; Ok (c :: t, rest).
Proof.
  intros Hq Hb Hc. cbn [scanstring].
  apply N.eqb_neq in Hq, Hb. rewrite Hq, Hb.
  assert (E : (c <? 32) = false) by (apply N.ltb_ge; exact Hc).
  now rewrite E.
Qed.

Lemma scanstring_escape e ch X :
  backslash_escape e = Some ch ->
  scanstring (BACKSLASH :: e :: X) =
  ' (t, rest) <- scanstring X ;; Ok (ch :: t, rest).
Proof.
  intros H. cbn [scanstring]. change (BACKSLASH =? QUOTE) with false.
  change (BACKSLASH =? BACKSLASH) with true. cbv iota.
  destruct (e =? 117) eqn:E.
  - apply N.eqb_eq in E. subst e. discriminate H.
  - now rewrite H.
Qed.

Lemma scanstring_u_single h1 h2 h3 h4 uni X :
  decode_uXXXX h1 h2 h3 h4 = Some uni ->
  is_high_surrogate uni = false ->
  scanstring (BACKSLASH :: 117 :: h1 :: h2 :: h3 :: h4 :: X) =
  ' (t, rest) <- scanstring X ;; Ok (uni :: t, rest).
Proof.
  intros H Hs. cbn [scanstring]. change (BACKSLASH =? QUOTE) with false.
  change (BACKSLASH =? BACKSLASH) with true. change (117 =? 117) with true.
  cbv iota. now rewrite H, Hs.
Qed.

Lemma scanstring_u_pair h1 h2 h3 h4 k1 k2 k3 k4 uni uni2 X :
  decode_uXXXX h1 h2 h3 h4 = Some uni ->
  is_high_surrogate uni = true ->
  decode_uXXXX k1 k2 k3 k4 = Some uni2 ->
  is_low_surrogate uni2 = true ->
  scanstring (BACKSLASH :: 117 :: h1 :: h2 :: h3 :: h4 ::
              BACKSLASH :: 117 :: k1 :: k2 :: k3 :: k4 :: X) =
  ' (t, rest) <- scanstring X ;; Ok (join_surrogates uni uni2 :: t, rest).
Proof.
  intros H Hs H2 Hl. cbn [scanstring]. change (BACKSLASH =? QUOTE) with false.
  change (BACKSLASH =? BACKSLASH) with true. change (117 =? 117) with true.
  cbv iota. rewrite H, Hs. cbn [andb]. now rewrite H2, Hl.
Qed.

(** The surrogate pair written for a code point above the basic plane
    joins back into it. *)
Lemma surrogate_pair_join c :
  65536 <= c -> c < 1114112 ->
  let n := c - 65536 in
  let s1 := N.lor 55296 (N.land (N.shiftr n 10) 1023) in
  let s2 := N.lor 56320 (N.land n 1023) in
  s1 < 65536 /\ s2 < 65536 /\
  is_high_surrogate s1 = true /\ is_low_surrogate s2 = true /\
  join_surrogates s1 s2 = c.
Proof.
  intros Hlo Hhi n s1 s2.
  assert (En : n = c - 65536) by reflexivity. clearbody n.
  pose proof (N.div_mod' n 1024) as Hdm.
  assert (Hr : n mod 1024 < 1024) by now apply N.mod_lt.
  assert (Hq : n / 1024 < 1024)
    by (apply N.Div0.div_lt_upper_bound; lia).
  assert (E1 : s1 = 55296 + n / 1024).
  { unfold s1. change 1023 with (N.ones 10).
    rewrite N.land_ones, N.shiftr_div_pow2. change (2 ^ 10) with 1024.
    rewrite (N.mod_small _ _ Hq).
    change 55296 with (54 * 2 ^ 10). now apply lor_pow2_low. }
  assert (E2 : s2 = 56320 + n mod 1024).
  { unfold s2. change 1023 with (N.ones 10). rewrite N.land_ones.
    change (2 ^ 10) with 1024. change 56320 with (55 * 2 ^ 10).
    now apply lor_pow2_low. }
  clearbody s1 s2.
  set (q := n / 1024) in *. set (m := n mod 1024) in *. clearbody q m.
  subst s1 s2.
  assert (Ej : join_surrogates (55296 + q) (56320 + m) = c).
  { unfold join_surrogates.
    replace (55296 + q - 55296) with q by lia.
    replace (56320 + m - 56320) with m by lia.
    rewrite N.shiftl_mul_pow2, lor_pow2_low by exact Hr.
    change (2 ^ 10) with 1024. lia. }
  unfold is_high_surrogate, is_low_surrogate.
  rewrite !andb_true_iff, !N.leb_le. rewrite Ej. repeat split; lia.
Qed.

(** One encoded character is scanned back. *)
Lemma scanstring_encode_char c X t r :
  scalar c = true ->
  scanstring X = Ok (t, r) ->
  scanstring (encode_char c ++ X) = Ok (c :: t, r).
Proof.
  intros Hc HX. unfold encode_char.
  destruct ((32 <=? c) && (c <=? 126) && negb (c =? QUOTE)
            && negb (c =? BACKSLASH)) eqn:Eplain.
  { rewrite !andb_true_iff, !negb_true_iff, !N.eqb_neq, !N.leb_le in Eplain.
    destruct Eplain as [[[H1 H2] H3] H4].
    cbn [app]. rewrite scanstring_plain, HX by assumption. reflexivity. }
  destruct (c =? QUOTE) eqn:E1.
  { apply N.eqb_eq in E1. subst c. cbn [app].
    now rewrite (scanstring_escape QUOTE QUOTE), HX. }
  destruct (c =? BACKSLASH) eqn:E2.
  { apply N.eqb_eq in E2. subst c. cbn [app].
    now rewrite (scanstring_escape BACKSLASH BACKSLASH), HX. }
  destruct (c =? 8) eqn:E3.
  { apply N.eqb_eq in E3. subst c. cbn [app].
    now rewrite (scanstring_escape 98 8), HX. }
  destruct (c =? 12) eqn:E4.
  { apply N.eqb_eq in E4. subst c. cbn [app].
    now rewrite (scanstring_escape 102 12), HX. }
  destruct (c =? 10) eqn:E5.
  { apply N.eqb_eq in E5. subst c. cbn [app].
    now rewrite (scanstring_escape 110 10), HX. }
  destruct (c =? 13) eqn:E6.
  { apply N.eqb_eq in E6. subst c. cbn [app].
    now rewrite (scanstring_escape 114 13), HX. }
  destruct (c =? 9) eqn:E7.
  { apply N.eqb_eq in E7. subst c. cbn [app].
    now rewrite (scanstring_escape 116 9), HX. }
  unfold scalar in Hc.
  rewrite orb_true_iff, andb_true_iff, !N.ltb_lt, N.leb_le in Hc.
  destruct (c <? 65536) eqn:E8.
  - apply N.ltb_lt in E8.
    destruct (u_escape_decode c E8) as (h1 & h2 & h3 & h4 & -> & Hd).
    cbn [app]. rewrite (scanstring_u_single _ _ _ _ c), HX; [reflexivity|exact Hd|].
    unfold is_high_surrogate. apply andb_false_iff.
    destruct Hc as [Hc|[Hc _]]; [left|right]; apply N.leb_gt; lia.
  - apply N.ltb_ge in E8.
    assert (Hhi : c < 1114112) by (destruct Hc as [Hc|[_ Hc]]; lia).
    destruct (surrogate_pair_join c E8 Hhi) as (L1 & L2 & Hh & Hl & Hj).
    cbv zeta.
    destruct (u_escape_decode _ L1) as (h1 & h2 & h3 & h4 & -> & Hd1).
    destruct (u_escape_decode _ L2) as (k1 & k2 & k3 & k4 & -> & Hd2).
    cbn [app].
    rewrite (scanstring_u_pair _ _ _ _ _ _ _ _ _ _ _ Hd1 Hh Hd2 Hl), HX.
    cbn [bind]. now rewrite Hj.
Qed.

(** The body of an encoded string is scanned back, up to its closing
    quote. *)
Lemma scanstring_encode_chars s r :
  text_ok s = true ->
  scanstring (encode_chars s ++ QUOTE :: r) = Ok (s, r).
Proof.
  induction s as [|c s IH]; intros H.
  - reflexivity.
  - cbn [text_ok forallb] in H. apply andb_true_iff in H as [Hc Hs].
    unfold encode_chars. cbn [flat_map]. rewrite <- List.app_assoc.
    apply scanstring_encode_char; [exact Hc|]. now apply IH.
Qed.

(** *** Numbers *)

Lemma chars_uint_uint_chars u : chars_uint (uint_chars u) = u.
Proof. induction u; cbn; try reflexivity; f_equal; assumption. Qed.

Lemma span_digits_end r : number_end r = true -> span_digits r = ([], r).
Proof.
  destruct r as [|c r]; [reflexivity|]. cbn.
  rewrite !andb_true_iff, negb_true_iff. intros [[[-> _] _] _]. reflexivity.
Qed.

Lemma span_digits_uint u r :
  number_end r = true -> span_digits (uint_chars u ++ r) = (uint_chars u, r).
Proof.
  intros H. induction u; cbn;
    [now apply span_digits_end|match goal with IH : _ = _ |- _ => now rewrite IH end ..].
Qed.

Lemma nzhead_not_D0 u :
  match Decimal.nzhead u with Decimal.D0 _ => False | _ => True end.
Proof. induction u; cbn; auto. Qed.

(** [Pos.to_uint] writes no leading zero. *)
Lemma canonical_to_uint p : canonical (Pos.to_uint p).
Proof.
  pose proof (DecimalPos.Unsigned.to_of (Pos.to_uint p)) as E.
  rewrite DecimalPos.Unsigned.of_to in E. cbn [N.to_uint] in E.
  pose proof (nzhead_not_D0 (Pos.to_uint p)) as H.
  unfold Decimal.unorm in E.
  destruct (Decimal.nzhead (Pos.to_uint p)) eqn:En;
    try (rewrite E; exact I).
  destruct H.
Qed.

Lemma canonical_to_int z :
  match Z.to_int z with
  | Decimal.Pos u => canonical u
  | Decimal.Neg u => canonical u
  end.
Proof. destruct z; cbn; try apply canonical_to_uint. exact I. Qed.

Lemma match_integer_canonical (neg : bool) u r :
  canonical u -> number_end r = true ->
  match_integer ((if neg then [MINUS] else []) ++ uint_chars u ++ r) =
  Some (neg, uint_chars u, r).
Proof.
  intros Hu Hr.
  assert (E : match_integer ((if neg then [MINUS] else []) ++ uint_chars u ++ r)
              = match uint_chars u ++ r with
                | c :: r' =>
                    if c =? 48 then Some (neg, [c], r')
                    else if is_digit c then
                           let '(d, r'') := span_digits r' in
                           Some (neg, c :: d, r'')
                         else None
                | [] => None
                end).
  { unfold match_integer. destruct neg; cbn [app].
    - reflexivity.
    - destruct u; try destruct Hu; reflexivity. }
  rewrite E. clear E.
  destruct u; cbn in Hu |- *; try destruct Hu;
    try (rewrite span_digits_uint by exact Hr; reflexivity).
  destruct u; try destruct Hu. reflexivity.
Qed.

Lemma match_frac_end r : number_end r = true -> match_frac r = ([], r).
Proof.
  destruct r as [|c r]; [reflexivity|]. cbn.
  rewrite !andb_true_iff, !negb_true_iff. intros [[[_ ->] _] _]. reflexivity.
Qed.

Lemma match_exp_end r : number_end r = true -> match_exp r = ([], r).
Proof.
  destruct r as [|c r]; [reflexivity|]. cbn.
  rewrite !andb_true_iff, !negb_true_iff. intros [[[_ _] ->] ->]. reflexivity.
Qed.

(** [str(z)] is matched whole by [NUMBER_RE] and read back by [int]. *)
Lemma scan_number_int_str z r :
  number_end r = true -> scan_number (int_str z ++ r) = Some (PInt z, r).
Proof.
  intros Hr. pose proof (canonical_to_int z) as Hc.
  pose proof (DecimalZ.of_to z) as Hz.
  unfold scan_number, int_str.
  destruct (Z.to_int z) as [u|u].
  - pose proof (match_integer_canonical false u r Hc Hr) as E.
    cbn [app] in E. rewrite E.
    rewrite match_frac_end, match_exp_end by exact Hr.
    now rewrite chars_uint_uint_chars, Hz.
  - pose proof (match_integer_canonical true u r Hc Hr) as E.
    cbn [app] in E |- *. rewrite E.
    rewrite match_frac_end, match_exp_end by exact Hr.
    now rewrite chars_uint_uint_chars, Hz.
Qed.

(** *** Values *)

Lemma skip_ws_head c r : is_ws c = false -> skip_ws (c :: r) = c :: r.
Proof. intros H. cbn [skip_ws]. now rewrite H. Qed.

Lemma skip_ws_spaces n c r :
  is_ws c = false -> skip_ws (repeat SPACE n ++ c :: r) = c :: r.
Proof.
  intros H. induction n as [|n IH]; cbn [repeat app].
  - now apply skip_ws_head.
  - cbn [skip_ws]. change (is_ws SPACE) with true. exact IH.
Qed.

Lemma skip_ws_newline_indent k c r :
  is_ws c = false -> skip_ws (newline_indent k ++ c :: r) = c :: r.
Proof.
  intros H. unfold newline_indent. cbn [app skip_ws].
  change (is_ws NEWLINE) with true. now apply skip_ws_spaces.
Qed.

(** [scan_once] and its two loops, as equations. *)
Lemma scan_once_quote f r :
  scan_once (S f) (QUOTE :: r) = ' (t, rest) <- scanstring r ;; Ok (PStr t, rest).
Proof. reflexivity. Qed.

Lemma scan_once_lbracket f r :
  scan_once (S f) (LBRACKET :: r) =
  match skip_ws r with
  | c' :: r' =>
      if c' =? RBRACKET then Ok (PList [], r')
      else ' (values, rest) <- array_items f (c' :: r') ;; Ok (PList values, rest)
  | [] => Raise JSONDecodeError
  end.
Proof. reflexivity. Qed.

Lemma scan_once_lbrace f r :
  scan_once (S f) (LBRACE :: r) =
  match skip_ws r with
  | c' :: r' =>
      if c' =? RBRACE then Ok (PDict [], r')
      else if c' =? QUOTE then
        ' (pairs, rest) <- object_items f r' ;;
        Ok (PDict (dict_of_pairs pairs), rest)
      else Raise JSONDecodeError
  | [] => Raise JSONDecodeError
  end.
Proof. reflexivity. Qed.

Lemma array_items_eq f s :
  array_items (S f) s =
  ' (value, r) <- scan_once f s ;;
  match skip_ws r with
  | c :: r' =>
      if c =? RBRACKET then Ok ([value], r')
      else if c =? COMMA then
        ' (values, rest) <- array_items f (skip_ws r') ;;
        Ok (value :: values, rest)
      else Raise JSONDecodeError
  | [] => Raise JSONDecodeError
  end.
Proof. reflexivity. Qed.

Lemma object_items_eq f s :
  object_items (S f) s =
  ' (key, r) <- scanstring s ;;
  match skip_ws r with
  | c :: r1 =>
      if c =? COLON then
        ' (value, r2) <- scan_once f (skip_ws r1) ;;
        match skip_ws r2 with
        | c' :: r3 =>
            if c' =? RBRACE then Ok ([(key, value)], r3)
            else if c' =? COMMA then
              match skip_ws r3 with
              | q :: r4 =>
                  if q =? QUOTE then
                    ' (pairs, rest) <- object_items f r4 ;;
                    Ok ((key, value) :: pairs, rest)
                  else Raise JSONDecodeError
              | [] => Raise JSONDecodeError
              end
            else Raise JSONDecodeError
        | [] => Raise JSONDecodeError
        end
      else Raise JSONDecodeError
  | [] => Raise JSONDecodeError
  end.
Proof. reflexivity. Qed.

Lemma startswith_head_neq x a c r :
  x <> c -> startswith (x :: a) (c :: r) = false.
Proof. intros H. cbn [startswith]. apply N.eqb_neq in H. now rewrite H. Qed.

Lemma scan_once_number f c r :
  number_start c = true ->
  scan_once (S f) (c :: r) =
  match scan_number (c :: r) with
  | Some res => Ok res
  | None =>
      if startswith (lit "-Infinity") (c :: r)
      then Ok (PFloat (lit "-Infinity"), skipn 9 (c :: r))
      else Raise JSONDecodeError
  end.
Proof.
  intros H. unfold number_start, is_digit in H.
  rewrite orb_true_iff, andb_true_iff, !N.leb_le, N.eqb_eq in H.
  unfold MINUS in H.
  cbn [scan_once].
  assert (T : forall k, k < 45 \/ 57 < k -> (c =? k) = false)
    by (intros k Hk; apply N.eqb_neq; lia).
  unfold QUOTE, LBRACE, LBRACKET.
  rewrite !T by lia.
  change (lit "null") with [110; 117; 108; 108].
  change (lit "true") with [116; 114; 117; 101].
  change (lit "false") with [102; 97; 108; 115; 101].
  change (lit "NaN") with [78; 97; 78].
  change (lit "Infinity") with [73; 110; 102; 105; 110; 105; 116; 121].
  rewrite !startswith_head_neq by lia.
  reflexivity.
Qed.

Lemma int_str_head z :
  exists c rest, int_str z = c :: rest /\ number_start c = true.
Proof.
  pose proof (canonical_to_int z) as H. unfold int_str.
  destruct (Z.to_int z) as [u|u].
  - destruct u; try destruct H; cbn [uint_chars]; do 2 eexists;
      (split; [reflexivity|reflexivity]).
  - do 2 eexists. split; reflexivity.
Qed.

(** The text of a value starts with a character that is neither white
    space nor a closing bracket. *)
Lemma iterencode_head lvl v :
  json_ok v = true ->
  exists c rest,
    iterencode lvl v = c :: rest /\
    is_ws c = false /\ (c =? RBRACKET) = false.
Proof.
  intros H. destruct v as [|b|z|l|s|l|kvs].
  - do 2 eexists. repeat split.
  - destruct b; do 2 eexists; repeat split.
  - destruct (int_str_head z) as (c & rest & E & Hc). exists c, rest.
    cbn [iterencode]. split; [exact E|].
    unfold number_start, is_digit in Hc.
    rewrite orb_true_iff, andb_true_iff, !N.leb_le, N.eqb_eq in Hc.
    unfold MINUS in Hc. unfold is_ws, RBRACKET.
    rewrite !orb_false_iff, !N.eqb_neq. lia.
  - discriminate H.
  - do 2 eexists. repeat split.
  - destruct l; do 2 eexists; repeat split.
  - destruct kvs; do 2 eexists; repeat split.
Qed.

Lemma distinct_NoDup ks : distinct ks = true -> NoDup ks.
Proof.
  induction ks as [|k ks IH]; cbn [distinct]; [constructor|].
  rewrite andb_true_iff, negb_true_iff. intros [Hk Hd].
  constructor; [|now apply IH].
  intros Hin.
  assert (E : existsb (str_eqb k) ks = true).
  { apply existsb_exists. exists k. split; [exact Hin|apply str_eqb_refl]. }
  congruence.
Qed.

Lemma dict_set_fresh k v d :
  ~ In k (List.map fst d) -> dict_set k v d = d ++ [(k, v)].
Proof.
  induction d as [|[k' v'] d IH]; cbn; intros H; [reflexivity|].
  destruct (str_eqb k k') eqn:E.
  - apply str_eqb_eq in E. subst k'. exfalso. apply H. now left.
  - rewrite IH; [reflexivity|]. intros Hin. apply H. now right.
Qed.

(** [dict(pairs)] keeps pairs of distinct keys as they are. *)
Lemma dict_of_pairs_distinct kvs :
  distinct (List.map fst kvs) = true -> dict_of_pairs kvs = kvs.
Proof.
  intros Hd. apply distinct_NoDup in Hd. unfold dict_of_pairs.
  enough (G : forall acc,
             (forall k, In k (List.map fst kvs) -> ~ In k (List.map fst acc)) ->
             fold_left (fun d kv => dict_set (fst kv) (snd kv) d) kvs acc =
             acc ++ kvs)
    by (apply (G []); intros k _ []).
  induction kvs as [|[k v] kvs IH]; intros acc Hacc; cbn [fold_left fst snd].
  - now rewrite List.app_nil_r.
  - cbn [List.map fst] in Hd. inversion Hd as [|? ? Hk Hd']. subst.
    rewrite dict_set_fresh by (apply Hacc; now left).
    rewrite IH; [now rewrite <- List.app_assoc|exact Hd'|].
    intros k' Hin. rewrite map_app, in_app_iff. cbn.
    intros [Hin'|[->|[]]].
    + apply (Hacc k'); [now right|exact Hin'].
    + exact (Hk Hin).
Qed.

Lemma list_tail_end lvl xs r : number_end (list_tail lvl xs r) = true.
Proof. destruct xs; reflexivity. Qed.

Lemma dict_tail_end lvl kvs r : number_end (dict_tail lvl kvs r) = true.
Proof. destruct kvs; reflexivity. Qed.

Lemma iterencode_list lvl x xs r :
  iterencode lvl (PList (x :: xs)) ++ r =
  LBRACKET :: newline_indent (S lvl) ++ iterencode (S lvl) x ++
  list_tail lvl xs r.
Proof.
  unfold list_tail. cbn [iterencode].
  now rewrite <- !List.app_comm_cons, <- !List.app_assoc.
Qed.

Lemma iterencode_dict lvl kx kvs r :
  iterencode lvl (PDict (kx :: kvs)) ++ r =
  LBRACE :: newline_indent (S lvl) ++ QUOTE :: encode_item lvl kx ++
  dict_tail lvl kvs r.
Proof.
  unfold dict_tail, encode_item. cbn [iterencode].
  unfold encode_basestring_ascii.
  rewrite (flat_map_ext
             (fun ky : str * pyvalue =>
                COMMA :: newline_indent (S lvl) ++
                (QUOTE :: encode_chars (fst ky) ++ [QUOTE]) ++
                COLON :: SPACE :: iterencode (S lvl) (snd ky))
             (fun ky : str * pyvalue =>
                COMMA :: newline_indent (S lvl) ++
                QUOTE :: (encode_chars (fst ky) ++
                QUOTE :: COLON :: SPACE :: iterencode (S lvl) (snd ky))))
    by (intros ky; now rewrite <- !List.app_comm_cons, <- List.app_assoc).
  repeat (rewrite <- ?List.app_comm_cons, <- ?List.app_assoc; cbn [app]).
  reflexivity.
Qed.

Ltac reassoc :=
  repeat first [ rewrite <- List.app_assoc | progress cbn [app] ].

Lemma list_tail_cons lvl y xs r :
  list_tail lvl (y :: xs) r =
  COMMA :: newline_indent (S lvl) ++ iterencode (S lvl) y ++ list_tail lvl xs r.
Proof.
  unfold list_tail. cbn [flat_map]. reassoc. reflexivity.
Qed.

Lemma dict_tail_cons lvl ky kvs r :
  dict_tail lvl (ky :: kvs) r =
  COMMA :: newline_indent (S lvl) ++ QUOTE :: encode_item lvl ky ++
  dict_tail lvl kvs r.
Proof.
  unfold dict_tail. cbn [flat_map]. reassoc. reflexivity.
Qed.

Lemma skip_ws_iterencode lvl v r k :
  json_ok v = true ->
  skip_ws (newline_indent k ++ iterencode lvl v ++ r) = iterencode lvl v ++ r.
Proof.
  intros H. destruct (iterencode_head lvl v H) as (c & rest & -> & Hc & _).
  cbn [app]. now apply skip_ws_newline_indent.
Qed.

(** The loop of [JSONArray] on the items the encoder wrote. *)
Lemma array_items_encoded lvl xs :
  forall x f r,
    Forall (fun v => json_ok v = true -> decodes v) (x :: xs) ->
    forallb json_ok (x :: xs) = true ->
    (list_sum (List.map (fun v => S (cost v)) (x :: xs)) <= f)%nat ->
    array_items f (iterencode (S lvl) x ++ list_tail lvl xs r) =
    Ok (x :: xs, r).
Proof.
  induction xs as [|y xs IH]; intros x f r HP Hok Hf;
    inversion HP as [|? ? Hx HP']; subst;
    cbn [forallb] in Hok; apply andb_true_iff in Hok as [Hokx Hok];
    cbn [List.map list_sum fold_right] in Hf;
    (destruct f as [|f]; [lia|]);
    rewrite array_items_eq,
      (Hx Hokx (S lvl) f _ ltac:(lia) (list_tail_end lvl _ r));
    cbn [bind].
  - unfold list_tail. cbn [flat_map app].
    rewrite skip_ws_newline_indent by reflexivity. reflexivity.
  - rewrite list_tail_cons.
    rewrite skip_ws_head by reflexivity.
    change (COMMA =? RBRACKET) with false. change (COMMA =? COMMA) with true.
    cbv iota.
    cbn [forallb] in Hok. pose proof Hok as Hok'.
    apply andb_true_iff in Hok' as [Hoky _].
    rewrite skip_ws_iterencode by exact Hoky.
    rewrite (IH y f r HP' Hok) by (cbn [List.map list_sum fold_right]; lia).
    reflexivity.
Qed.

(** The loop of [JSONObject] on the items the encoder wrote. *)
Lemma object_items_encoded lvl kvs :
  forall kx f r,
    Forall (fun kv => json_ok (snd kv) = true -> decodes (snd kv)) (kx :: kvs) ->
    forallb (fun kv => text_ok (fst kv) && json_ok (snd kv)) (kx :: kvs) = true ->
    (list_sum (List.map (fun kv => S (cost (snd kv))) (kx :: kvs)) <= f)%nat ->
    object_items f (encode_item lvl kx ++ dict_tail lvl kvs r) =
    Ok (kx :: kvs, r).
Proof.
  induction kvs as [|ky kvs IH]; intros [k x] f r HP Hok Hf;
    inversion HP as [|? ? Hx HP']; subst;
    cbn [forallb fst snd] in Hok;
    apply andb_true_iff in Hok as [Hokx Hok];
    apply andb_true_iff in Hokx as [Hk Hokx];
    cbn [List.map list_sum fold_right snd] in Hf;
    (destruct f as [|f]; [lia|]);
    rewrite object_items_eq;
    unfold encode_item at 1; cbn [fst snd]; rewrite <- List.app_assoc;
    cbn [app]; rewrite (scanstring_encode_chars _ _ Hk); cbn [bind];
    rewrite skip_ws_head by reflexivity;
    change (COLON =? COLON) with true; cbv iota;
    destruct (iterencode_head (S lvl) x Hokx) as (c & rest & E & Hc & _);
    assert (Hs : forall t, skip_ws (SPACE :: iterencode (S lvl) x ++ t) =
                           iterencode (S lvl) x ++ t)
      by (intros t; rewrite E; cbn [skip_ws app];
          change (is_ws SPACE) with true; now apply skip_ws_head);
    rewrite Hs;
    cbn [snd] in Hx;
    rewrite (Hx Hokx (S lvl) f _ ltac:(lia) (dict_tail_end lvl _ r));
    cbn [bind].
  - unfold dict_tail. cbn [flat_map app].
    rewrite skip_ws_newline_indent by reflexivity. reflexivity.
  - rewrite dict_tail_cons.
    rewrite skip_ws_head by reflexivity.
    change (COMMA =? RBRACE) with false. change (COMMA =? COMMA) with true.
    cbv iota.
    rewrite skip_ws_newline_indent by reflexivity.
    change (QUOTE =? QUOTE) with true. cbv iota.
    rewrite (IH ky f r HP' Hok) by (cbn [List.map list_sum fold_right]; lia).
    reflexivity.
Qed.

(** The scanner reads back what the encoder writes, at any indentation
    level and before any text that cannot continue a number. *)
Theorem scan_once_iterencode v : json_ok v = true -> decodes v.
Proof.
  induction v as [|b|z|l|s|l IH|kvs IH] using pyvalue_ind;
    intros Hok lvl f r Hf Hr; cbn [cost] in Hf;
    (destruct f as [|f]; [lia|]).
  - reflexivity.
  - destruct b; reflexivity.
  - cbn [iterencode].
    destruct (int_str_head z) as (c & rest & E & Hc).
    pose proof (scan_number_int_str z r Hr) as Hn.
    rewrite E in Hn |- *. cbn [app] in Hn |- *.
    now rewrite (scan_once_number f c _ Hc), Hn.
  - discriminate Hok.
  - cbn [iterencode json_ok] in Hok |- *. unfold encode_basestring_ascii.
    cbn [app]. rewrite <- List.app_assoc. cbn [app].
    rewrite scan_once_quote, scanstring_encode_chars by exact Hok.
    reflexivity.
  - destruct l as [|x xs]; [reflexivity|].
    rewrite iterencode_list, scan_once_lbracket.
    cbn [json_ok] in Hok. pose proof Hok as Hok'.
    cbn [forallb] in Hok'. apply andb_true_iff in Hok' as [Hokx _].
    rewrite skip_ws_iterencode by exact Hokx.
    destruct (iterencode_head (S lvl) x Hokx) as (c & rest & E & _ & Hc).
    pose proof (array_items_encoded lvl xs x f r IH Hok ltac:(lia)) as HA.
    rewrite E in HA |- *. cbn [app] in HA |- *.
    now rewrite Hc, HA.
  - destruct kvs as [|kx kvs]; [reflexivity|].
    rewrite iterencode_dict, scan_once_lbrace.
    cbn [json_ok] in Hok. apply andb_true_iff in Hok as [Hok Hd].
    rewrite skip_ws_newline_indent by reflexivity.
    change (QUOTE =? RBRACE) with false. change (QUOTE =? QUOTE) with true.
    cbv iota.
    rewrite (object_items_encoded lvl kvs kx f r IH Hok ltac:(lia)).
    cbn [bind]. now rewrite dict_of_pairs_distinct.
Qed.

Lemma flat_map_cost {A : Type} (c : A -> nat) (e : A -> str) (l : list A) :
  Forall (fun a => S (c a) <= List.length (e a))%nat l ->
  (list_sum (List.map (fun a => S (c a)) l) <= List.length (flat_map e l))%nat.
Proof.
  induction 1 as [|a l Ha _ IH]; cbn [List.map list_sum fold_right flat_map].
  - cbn. lia.
  - rewrite length_app. unfold list_sum in IH. lia.
Qed.

(** The text of a value is at least as long as the depth its scan needs. *)
Lemma cost_le_length v :
  json_ok v = true ->
  forall lvl, (cost v <= List.length (iterencode lvl v))%nat.
Proof.
  induction v as [|b|z|l|s|l IH|kvs IH] using pyvalue_ind; intros Hok lvl.
  - cbn. lia.
  - destruct b; cbn; lia.
  - cbn [iterencode cost]. destruct (int_str_head z) as (c & rest & -> & _).
    cbn [List.length]. lia.
  - discriminate Hok.
  - cbn [iterencode cost]. unfold encode_basestring_ascii.
    cbn [List.length]. lia.
  - destruct l as [|x xs]; [cbn; lia|].
    cbn [json_ok forallb] in Hok. apply andb_true_iff in Hok as [Hx Hxs].
    inversion IH as [|? ? IHx IHxs]. subst.
    cbn [iterencode cost List.map list_sum fold_right].
    cbn [List.length]. rewrite !length_app. cbn [List.length].
    specialize (IHx Hx (S lvl)).
    assert (Hl : (list_sum (List.map (fun v => S (cost v)) xs) <=
                  List.length
                    (flat_map (fun y => COMMA :: newline_indent (S lvl) ++
                                        iterencode (S lvl) y) xs))%nat).
    { apply flat_map_cost.
      rewrite forallb_forall in Hxs. rewrite Forall_forall in IHxs |- *.
      intros y Hy. cbn [List.length]. rewrite length_app.
      specialize (IHxs y Hy (Hxs y Hy) (S lvl)).
      cbn [newline_indent List.length]. lia. }
    unfold list_sum in Hl. lia.
  - destruct kvs as [|kx kvs]; [cbn; lia|].
    cbn [json_ok] in Hok. apply andb_true_iff in Hok as [Hok _].
    cbn [forallb] in Hok. apply andb_true_iff in Hok as [Hx Hxs].
    apply andb_true_iff in Hx as [_ Hx].
    inversion IH as [|? ? IHx IHxs]. subst.
    cbn [iterencode cost List.map list_sum fold_right].
    cbn [List.length]. rewrite !length_app. cbn [List.length].
    rewrite !length_app.
    specialize (IHx Hx (S lvl)).
    assert (Hl : (list_sum (List.map (fun kv => S (cost (snd kv))) kvs) <=
                  List.length
                    (flat_map (fun ky => COMMA :: newline_indent (S lvl) ++
                                         encode_basestring_ascii (fst ky) ++
                                         COLON :: SPACE ::
                                         iterencode (S lvl) (snd ky)) kvs))%nat).
    { apply (flat_map_cost (fun kv => cost (snd kv))).
      rewrite forallb_forall in Hxs. rewrite Forall_forall in IHxs |- *.
      intros ky Hy. cbn [List.length]. rewrite !length_app. cbn [List.length].
      specialize (Hxs ky Hy). apply andb_true_iff in Hxs as [_ Hxs].
      specialize (IHxs ky Hy Hxs (S lvl)). lia. }
    unfold list_sum in Hl. lia.
Qed.

(** [json.loads(json.dumps(v, indent=4)) == v]. *)
Theorem json_loads_dumps v : json_ok v = true -> json_loads (json_dumps v) = Ok v.
Proof.
  intros Hok. unfold json_loads, json_dumps.
  destruct (iterencode_head 0%nat v Hok) as (c & rest & E & Hc & _).
  assert (Hs : skip_ws (iterencode 0%nat v) = iterencode 0%nat v)
    by (rewrite E; now apply skip_ws_head).
  rewrite Hs.
  pose proof (scan_once_iterencode v Hok 0%nat
                (2 * List.length (iterencode 0%nat v) + 2)%nat []) as H.
  rewrite List.app_nil_r in H. rewrite H; [reflexivity| |reflexivity].
  pose proof (cost_le_length v Hok 0%nat). lia.
Qed.

End JsonFacts.

(* ================================================================== *)
(** ** Persistence *)
(* ================================================================== *)

Lemma dict_of_book_inj b b' : dict_of_book b = dict_of_book b' -> b = b'.
Proof.
  destruct b, b'. unfold dict_of_book. cbn [id title author publication_year
    genre read_status]. intros E. injection E as -> -> -> -> -> ->.
  reflexivity.
Qed.

(** Two lists of records with the same Python value are the same list. *)
Lemma library_value_inj books books' :
  library_value books = library_value books' -> books = books'.
Proof.
  unfold library_value. intros E. injection E as E.
  revert books' E. induction books as [|b l IH]; intros [|b' l'] E;
    try discriminate E; [reflexivity|].
  cbn [List.map] in E.
  assert (Eb : dict_of_book b = dict_of_book b') by congruence.
  assert (El : List.map dict_of_book l = List.map dict_of_book l')
    by congruence.
  f_equal; [now apply dict_of_book_inj|now apply IH].
Qed.

Lemma json_ok_dict_of_book b :
  valid_book b = true -> json_ok (dict_of_book b) = true.
Proof.
  unfold valid_book. rewrite !andb_true_iff. intros [[Ht Ha] Hg].
  unfold dict_of_book. cbn [json_ok forallb List.map fst snd].
  rewrite Ht, Ha, Hg. reflexivity.
Qed.

Lemma json_ok_library_value books :
  forallb valid_book books = true -> json_ok (library_value books) = true.
Proof.
  unfold library_value. cbn [json_ok].
  induction books as [|b l IH]; cbn [forallb List.map]; [reflexivity|].
  rewrite andb_true_iff. intros [Hb Hl].
  now rewrite json_ok_dict_of_book, IH.
Qed.

(** Outside Unicode text the file does not read back: a string of a high and
    a low surrogate code point is written as two escapes, which the decoder
    joins into one code point. *)
Example surrogates_are_joined :
  json_loads (json_dumps (PStr [55296; 56320]%N)) = Ok (PStr [65536%N]).
Proof. vm_compute. reflexivity. Qed.

(** C5.  Round trip through the file: for every store of valid records
    (their strings are Unicode text), a start of the program that finds the
    file [save_library_to_file] has just written loads the Python value of
    the saved library, and that value stands for no other list of records:
    the same fields in each record, in the same order. *)
Theorem load_after_save (st : state) :
  forallb valid_book (library st) = true ->
  startup None (library_file (save_library_to_file st)) =
    Ok (library_value (library st)) /\
  forall books,
    startup None (library_file (save_library_to_file st)) =
      Ok (library_value books) ->
    books = library st.
Proof.
  intros Hv.
  assert (E : startup None (library_file (save_library_to_file st)) =
              Ok (library_value (library st))).
  { cbn [startup save_library_to_file library_file].
    apply JsonFacts.json_loads_dumps. now apply json_ok_library_value. }
  split; [exact E|].
  intros books H. rewrite E in H.
  assert (Ev : library_value (library st) = library_value books)
    by congruence.
  symmetry. now apply library_value_inj.
Qed.

(** [load_after_save] on the store of four books. *)
Lemma load_after_save_witness :
  forallb valid_book (library four_books) = true /\
  startup None (library_file (save_library_to_file four_books)) =
    Ok (library_value (library four_books)).
Proof.
  split; [reflexivity|].
  exact (proj1 (load_after_save four_books eq_refl)).
Defined.

(** C9.  At startup an absent file gives the empty library, without an
    error.  The contents of a present file are not validated: when
    [json.load] raises on them the exception leaves [startup] uncaught, and
    when it returns a value that value is the library, whatever its shape.
    A truncated array is such a malformed file, and a bare number is a
    well-formed file that holds no list of records. *)
Theorem startup_load (content : str) :
  startup None None = Ok (PList []) /\
  (forall e, json_loads content = Raise e ->
             startup None (Some content) = Raise e) /\
  (forall v, json_loads content = Ok v ->
             startup None (Some content) = Ok v) /\
  startup None (Some (lit "[1, 2")) = Raise JSONDecodeError /\
  startup None (Some (lit "42")) = Ok (PInt 42) /\
  (forall books, library_value books <> PInt 42).
Proof.
  split; [reflexivity|].
  split; [intros e H; cbn [startup]; exact H|].
  split; [intros v H; cbn [startup]; exact H|].
  split; [vm_compute; reflexivity|].
  split; [vm_compute; reflexivity|].
  intros books. unfold library_value. discriminate.
Qed.

(** [startup_load] on a file that holds an opening brace only. *)
Lemma startup_load_witness :
  json_loads (lit "{") = Raise JSONDecodeError /\
  startup None (Some (lit "{")) = Raise JSONDecodeError.
Proof.
  assert (H : json_loads (lit "{") = Raise JSONDecodeError)
    by (vm_compute; reflexivity).
  split; [exact H|].
  exact (proj1 (proj2 (startup_load (lit "{"))) JSONDecodeError H).
Defined.

(* ================================================================== *)
(** ** Sessions and the file *)
(* ================================================================== *)

Lemma perform_saves st a :
  library_file (perform st a) =
  Some (json_dumps (library_value (library (perform st a)))).
Proof. destruct a; reflexivity. Qed.

Lemma run_snoc actions a st :
  run (actions ++ [a]) st = perform (run actions st) a.
Proof. unfold run. now rewrite fold_left_app. Qed.

Lemma run_saves actions st :
  actions <> [] ->
  library_file (run actions st) =
  Some (json_dumps (library_value (library (run actions st)))).
Proof.
  intros H. destruct (exists_last H) as (l & a & ->).
  rewrite run_snoc. apply perform_saves.
Qed.

(** After every action the file is the serialization of the library: for
    every state and every session of at least one action, the backing file
    holds [json.dump] of the library the session ends with. *)
Theorem file_mirrors_library (actions : list action) (st : state) :
  actions <> [] ->
  library_file (run actions st) =
  Some (json_dumps (library_value (library (run actions st)))).
Proof.
  intros H. destruct (exists_last H) as (l & a & ->).
  rewrite run_snoc. destruct a as [t au y g r|i].
  - reflexivity.
  - reflexivity.
Qed.

(** [file_mirrors_library] for the session of the design note. *)
Lemma file_mirrors_library_witness :
  colliding_session <> [] /\
  library_file (run colliding_session empty_state) =
  Some (json_dumps (library_value (library (run colliding_session empty_state)))).
Proof.
  assert (H : colliding_session <> []) by discriminate.
  split; [exact H|]. exact (file_mirrors_library colliding_session empty_state H).
Defined.

Lemma perform_valid st a :
  valid_action a = true ->
  forallb valid_book (library st) = true ->
  forallb valid_book (library (perform st a)) = true.
Proof.
  intros Ha Hst. destruct a as [t au y g r|i].
  - cbn [perform]. rewrite library_add_book, forallb_app, Hst.
    cbn [forallb]. unfold valid_book.
    cbn [title author genre valid_action] in Ha |- *. now rewrite Ha.
  - cbn [perform]. rewrite library_remove_book.
    rewrite forallb_forall in Hst |- *.
    intros b Hb. apply Hst. now apply filter_In in Hb.
Qed.

Lemma run_valid actions st :
  forallb valid_action actions = true ->
  forallb valid_book (library st) = true ->
  forallb valid_book (library (run actions st)) = true.
Proof.
  revert st. induction actions as [|a l IH]; intros st Ha Hst; [exact Hst|].
  cbn [forallb] in Ha. apply andb_true_iff in Ha as [Ha Hl].
  change (run (a :: l) st) with (run l (perform st a)).
  apply IH; [exact Hl|]. now apply perform_valid.
Qed.

(** Nothing is lost across a restart: after any session begun on the empty
    store with no file, whose additions carry Unicode text, a fresh start of
    the program loads exactly the library the session ended with. *)
Theorem restart_reloads_library (actions : list action) :
  forallb valid_action actions = true ->
  startup None (library_file (run actions empty_state)) =
  Ok (library_value (library (run actions empty_state))).
Proof.
  intros Hv. destruct actions as [|a l]; [reflexivity|].
  rewrite run_saves by discriminate. cbn [startup].
  apply JsonFacts.json_loads_dumps, json_ok_library_value.
  now apply run_valid.
Qed.

(** [restart_reloads_library] for the session of the design note. *)
Lemma restart_reloads_library_witness :
  forallb valid_action colliding_session = true /\
  startup None (library_file (run colliding_session empty_state)) =
  Ok (library_value (library (run colliding_session empty_state))).
Proof.
  split; [reflexivity|].
  exact (restart_reloads_library colliding_session eq_refl).
Defined.

Lemma count_adds_snoc actions a :
  count_adds (actions ++ [a]) =
  count_adds actions +
  match a with AddBook _ _ _ _ _ => 1 | RemoveBook _ => 0 end.
Proof.
  unfold count_adds. rewrite filter_app, length_app.
  destruct a; reflexivity.
Qed.

(** The ids of a session begun on the empty store stay between 1 and the
    number of additions made so far, and the store never holds more records
    than were added. *)
Theorem ids_within_additions (actions : list action) :
  List.length (library (run actions empty_state)) <= count_adds actions /\
  forall b, In b (library (run actions empty_state)) ->
            (1 <= id b <= Z.of_nat (count_adds actions))%Z.
Proof.
  induction actions as [|a l [IHlen IHids]] using rev_ind.
  - split; [cbn; lia|]. intros b [].
  - rewrite run_snoc, count_adds_snoc.
    destruct a as [t au y g r|i]; cbn [perform].
    + rewrite library_add_book, length_app. cbn [List.length].
      split; [lia|].
      intros b Hb. apply in_app_iff in Hb as [Hb|[<-|[]]].
      * specialize (IHids b Hb). lia.
      * cbn [id]. lia.
    + rewrite library_remove_book. split.
      * pose proof (filter_length_le (other_id i)
                      (library (run l empty_state))). lia.
      * intros b Hb. apply filter_In in Hb as [Hb _].
        specialize (IHids b Hb). lia.
Qed.

(* ================================================================== *)
(** ** More on search *)
(* ================================================================== *)

Lemma filter_subseq {A : Type} (f : A -> bool) (l : list A) :
  subseq (List.filter f l) l.
Proof.
  induction l as [|x l IH]; cbn [List.filter]; [constructor|].
  destruct (f x); now constructor.
Qed.

Lemma subseq_length {A : Type} (r l : list A) :
  subseq r l -> List.length r <= List.length l.
Proof. induction 1; cbn [List.length]; lia. Qed.

Lemma subseq_In {A : Type} (r l : list A) x : subseq r l -> In x r -> In x l.
Proof.
  induction 1 as [|y l r _ IH|y l r _ IH]; intros Hx.
  - exact Hx.
  - right. now apply IH.
  - destruct Hx as [->|Hx]; [now left|right; now apply IH].
Qed.

(** [search_books] only selects: its result is the input with some records
    left out, the others unchanged and in their order, so it is never longer
    than the input and holds nothing the input does not. *)
Theorem search_books_selects (lower : str -> str) (books : list book)
    (term genre_filter read_status_filter : str) :
  let found :=
    search_books lower books term genre_filter read_status_filter in
  subseq found books /\
  List.length found <= List.length books /\
  (forall b, In b found -> In b books).
Proof.
  cbv zeta. rewrite search_books_meets.
  pose proof (filter_subseq
                (meets_criteria lower term genre_filter read_status_filter)
                books) as H.
  split; [exact H|]. split.
  - now apply subseq_length.
  - intros b. now apply subseq_In.
Qed.

(** Every record is judged on its own: the search of two lists put end to
    end is the two searches put end to end. *)
Theorem search_books_app (lower : str -> str) (books1 books2 : list book)
    (term genre_filter read_status_filter : str) :
  search_books lower (books1 ++ books2) term genre_filter read_status_filter =
  search_books lower books1 term genre_filter read_status_filter ++
  search_books lower books2 term genre_filter read_status_filter.
Proof. rewrite !search_books_meets. apply filter_app. Qed.

(** Searching the result again with the same term and filters changes
    nothing. *)
Theorem search_books_idempotent (lower : str -> str) (books : list book)
    (term genre_filter read_status_filter : str) :
  search_books lower
    (search_books lower books term genre_filter read_status_filter)
    term genre_filter read_status_filter =
  search_books lower books term genre_filter read_status_filter.
Proof.
  rewrite !search_books_meets, filter_filter_andb.
  apply filter_ext. intros b. apply andb_diag.
Qed.

(** The three criteria compose: one search with a term and both filters is
    the search by the term alone, then by the genre alone, then by the
    status alone; and the three single searches may be made in the opposite
    order. *)
Theorem search_books_composes (lower : str -> str) (books : list book)
    (term genre_filter read_status_filter : str) :
  let all := lit "All" in
  search_books lower books term genre_filter read_status_filter =
    search_books lower
      (search_books lower
         (search_books lower books term all all)
         [] genre_filter all)
      [] all read_status_filter /\
  search_books lower books term genre_filter read_status_filter =
    search_books lower
      (search_books lower
         (search_books lower books [] all read_status_filter)
         [] genre_filter all)
      term all all.
Proof.
  cbv zeta. rewrite !search_books_meets, !filter_filter_andb.
  split; apply filter_ext; intros b; unfold meets_criteria;
    rewrite (str_eqb_refl (lit "All")); cbn [orb andb];
    rewrite ?andb_true_r;
    destruct (match term with
              | [] => true
              | _ :: _ => term_matches lower (lower term) b
              end);
    destruct (str_eqb genre_filter (lit "All") ||
              str_eqb (lower (genre b)) (lower genre_filter));
    destruct (str_eqb read_status_filter (lit "All") ||
              Bool.eqb (read_status b)
                (str_eqb read_status_filter (lit "Read")));
    reflexivity.
Qed.

Lemma str_eqb_neq a b : a <> b -> str_eqb a b = false.
Proof.
  intros H. destruct (str_eqb a b) eqn:E; [|reflexivity].
  apply str_eqb_eq in E. contradiction.
Qed.

(** A status filter that is neither "All" nor "Read" selects the unread
    records, whatever its text: it acts as "Unread" does. *)
Theorem search_books_other_status (lower : str -> str) (books : list book)
    (term genre_filter read_status_filter : str) :
  read_status_filter <> lit "All" ->
  read_status_filter <> lit "Read" ->
  search_books lower books term genre_filter read_status_filter =
    search_books lower books term genre_filter (lit "Unread") /\
  forall b,
    In b (search_books lower books term genre_filter read_status_filter) ->
    read_status b = false.
Proof.
  intros HA HR.
  assert (E : forall b,
    meets_criteria lower term genre_filter read_status_filter b =
    meets_criteria lower term genre_filter (lit "Unread") b).
  { intros b. unfold meets_criteria.
    rewrite (str_eqb_neq _ _ HA), (str_eqb_neq _ _ HR). reflexivity. }
  rewrite !search_books_meets. split.
  - apply filter_ext. exact E.
  - intros b Hb. apply filter_In in Hb as [_ Hb].
    unfold meets_criteria in Hb.
    rewrite (str_eqb_neq _ _ HA), (str_eqb_neq _ _ HR) in Hb.
    rewrite !andb_true_iff in Hb. destruct Hb as [_ Hb].
    cbn [orb] in Hb. now destruct (read_status b).
Qed.

(** [search_books_other_status] for a filter written in lower case. *)
Lemma search_books_other_status_witness :
  search_books ascii_lower (library four_books) [] (lit "All") (lit "read") =
    search_books ascii_lower (library four_books) [] (lit "All")
      (lit "Unread") /\
  forall b,
    In b (search_books ascii_lower (library four_books) [] (lit "All")
            (lit "read")) ->
    read_status b = false.
Proof.
  apply search_books_other_status; discriminate.
Defined.

Lemma filter_partition_length {A : Type} (f : A -> bool) (l : list A) :
  List.length (List.filter f l) +
  List.length (List.filter (fun x => negb (f x)) l) = List.length l.
Proof.
  induction l as [|x l IH]; cbn [List.filter]; [reflexivity|].
  destruct (f x); cbn [negb List.length]; lia.
Qed.

(** "Read" and "Unread" split what "All" finds: with the same term and genre
    filter every record found under "All" is found under exactly one of the
    two, and the two results together are as many as the one. *)
Theorem search_books_read_unread (lower : str -> str) (books : list book)
    (term genre_filter : str) :
  let found := search_books lower books term genre_filter in
  List.length (found (lit "Read")) + List.length (found (lit "Unread")) =
    List.length (found (lit "All")) /\
  (forall b, In b (found (lit "All")) <->
             In b (found (lit "Read")) \/ In b (found (lit "Unread"))) /\
  (forall b, In b (found (lit "Read")) -> In b (found (lit "Unread")) ->
             False).
Proof.
  cbv zeta. rewrite !search_books_meets.
  set (base := fun b =>
    match term with
    | [] => true
    | _ :: _ => term_matches lower (lower term) b
    end &&
    (str_eqb genre_filter (lit "All") ||
     str_eqb (lower (genre b)) (lower genre_filter))).
  assert (EA : forall b, meets_criteria lower term genre_filter (lit "All") b
                         = base b)
    by (intros b; unfold meets_criteria, base; cbn; apply andb_true_r).
  assert (ER : forall b, meets_criteria lower term genre_filter (lit "Read") b
                         = base b && read_status b)
    by (intros b; unfold meets_criteria, base; cbn;
        now destruct (read_status b)).
  assert (EU : forall b, meets_criteria lower term genre_filter (lit "Unread") b
                         = base b && negb (read_status b))
    by (intros b; unfold meets_criteria, base; cbn;
        now destruct (read_status b)).
  rewrite (filter_ext _ _ EA), (filter_ext _ _ ER), (filter_ext _ _ EU).
  rewrite <- !filter_filter_andb.
  split; [apply filter_partition_length|]. split.
  - intros b. rewrite !filter_In, negb_true_iff.
    destruct (read_status b); intuition congruence.
  - intros b. rewrite !filter_In, negb_true_iff.
    destruct (read_status b); intuition congruence.
Qed.

(* ================================================================== *)
(** ** More on removal and identifiers *)
(* ================================================================== *)

Lemma remove_book_eq i st :
  remove_book i st =
  State (List.filter (other_id i) (library st))
        (Some (json_dumps
                 (library_value (List.filter (other_id i) (library st))))).
Proof. reflexivity. Qed.

Lemma filter_filter_comm {A : Type} (f g : A -> bool) (l : list A) :
  List.filter f (List.filter g l) = List.filter g (List.filter f l).
Proof.
  induction l as [|x l IH]; cbn [List.filter]; [reflexivity|].
  destruct (f x) eqn:Ef, (g x) eqn:Eg; cbn [List.filter];
    rewrite ?Ef, ?Eg, IH; reflexivity.
Qed.

Lemma filter_filter_same {A : Type} (f : A -> bool) (l : list A) :
  List.filter f (List.filter f l) = List.filter f l.
Proof.
  induction l as [|x l IH]; cbn [List.filter]; [reflexivity|].
  destruct (f x) eqn:Ef; cbn [List.filter]; rewrite ?Ef, IH; reflexivity.
Qed.

(** Removing an id a second time changes neither the store nor the file, and
    two removals reach the same store and the same file in either order. *)
Theorem remove_book_twice (i j : Z) (st : state) :
  remove_book i (remove_book i st) = remove_book i st /\
  remove_book i (remove_book j st) = remove_book j (remove_book i st).
Proof.
  rewrite !remove_book_eq. cbn [library]. split.
  - now rewrite filter_filter_same.
  - now rewrite (filter_filter_comm (other_id i) (other_id j)).
Qed.

Lemma length_filter_ids (f : Z -> bool) (l : list book) :
  List.length (List.filter (fun b => f (id b)) l) =
  List.length (List.filter f (List.map id l)).
Proof.
  induction l as [|b l IH]; cbn [List.filter List.map]; [reflexivity|].
  destruct (f (id b)); cbn [List.length]; now rewrite IH.
Qed.

Lemma filter_all {A : Type} (f : A -> bool) (l : list A) :
  (forall x, In x l -> f x = true) -> List.filter f l = l.
Proof.
  induction l as [|x l IH]; intros H; cbn [List.filter]; [reflexivity|].
  rewrite (H x) by now left. rewrite IH; [reflexivity|].
  intros y Hy. apply H. now right.
Qed.

Lemma length_filter_first_ids (i : Z) (start n : nat) :
  (Z.of_nat start <= i < Z.of_nat (start + n))%Z ->
  List.length
    (List.filter (fun z => negb (z =? i)%Z) (List.map Z.of_nat (seq start n)))
  = n - 1.
Proof.
  revert start. induction n as [|n IH]; intros start H; [lia|].
  cbn [seq List.map List.filter].
  destruct (Z.of_nat start =? i)%Z eqn:E; cbn [negb List.length].
  - apply Z.eqb_eq in E.
    rewrite filter_all; [rewrite length_map, length_seq; lia|].
    intros z Hz. apply in_map_iff in Hz as (k & <- & Hk).
    apply in_seq in Hk. apply negb_true_iff, Z.eqb_neq. lia.
  - apply Z.eqb_neq in E. rewrite IH by lia. lia.
Qed.

Lemma ids_after_adds actions :
  Forall is_add actions ->
  List.map id (library (run actions empty_state)) =
  first_ids (List.length actions).
Proof.
  intros H. pose proof (ids_run_adds actions H empty_state) as E.
  exact E.
Qed.

Lemma length_after_adds actions :
  Forall is_add actions ->
  List.length (library (run actions empty_state)) = List.length actions.
Proof.
  intros H. pose proof (ids_after_adds actions H) as E.
  apply (f_equal (@List.length Z)) in E.
  unfold first_ids in E. now rewrite !length_map, length_seq in E.
Qed.

Lemma run_app actions1 actions2 st :
  run (actions1 ++ actions2) st = run actions2 (run actions1 st).
Proof. unfold run. apply fold_left_app. Qed.

Lemma first_ids_NoDup n : NoDup (first_ids n).
Proof.
  unfold first_ids. pose proof (seq_NoDup n 1) as N.
  induction N as [|k ks Hk _ IHk]; cbn [List.map]; constructor.
  - rewrite in_map_iff. intros (k' & Ek & Hk').
    apply Nat2Z.inj in Ek. now subst k'.
  - exact IHk.
Qed.

Lemma map_id_filter (f : Z -> bool) (books : list book) :
  List.map id (List.filter (fun b => f (id b)) books) =
  List.filter f (List.map id books).
Proof.
  induction books as [|b books IH]; [reflexivity|].
  cbn [List.filter List.map].
  destruct (f (id b)); cbn [List.map]; now rewrite IH.
Qed.

(** The collision of the design note in general.  After [n] additions to
    the empty store, removing any id [i] below [n] and adding one more book
    gives the new book the id [n], which the book added last before the
    removal still carries: the store then holds two records of id [n]. *)
Theorem add_after_remove_collides (adds : list action) (i : Z)
    (t a : str) (y : Z) (g : str) (r : bool) :
  Forall is_add adds ->
  (1 <= i < Z.of_nat (List.length adds))%Z ->
  let n := Z.of_nat (List.length adds) in
  let st := run (adds ++ [RemoveBook i; AddBook t a y g r]) empty_state in
  exists before old,
    library st = before ++ [Book n t a y g r] /\
    In old before /\ id old = n /\
    ~ NoDup (List.map id (library st)).
Proof.
  intros Hadds Hi. cbv zeta.
  rewrite run_app.
  set (st0 := run adds empty_state).
  pose proof (ids_after_adds adds Hadds) as Hids. fold st0 in Hids.
  change (run [RemoveBook i; AddBook t a y g r] st0)
    with (add_book t a y g r (remove_book i st0)).
  rewrite library_add_book, library_remove_book.
  assert (Hl : List.length (List.filter (other_id i) (library st0)) =
               List.length adds - 1).
  { unfold other_id.
    rewrite (length_filter_ids (fun z => negb (z =? i)%Z)), Hids.
    unfold first_ids. apply length_filter_first_ids. lia. }
  assert (Hold : exists old, In old (library st0) /\
                             id old = Z.of_nat (List.length adds)).
  { assert (Hin : In (Z.of_nat (List.length adds))
                     (List.map id (library st0))).
    { rewrite Hids. unfold first_ids. apply in_map, in_seq. lia. }
    apply in_map_iff in Hin as (old & E & Hin). now exists old. }
  destruct Hold as (old & Hin & Eold).
  exists (List.filter (other_id i) (library st0)), old.
  assert (Hkept : In old (List.filter (other_id i) (library st0))).
  { apply filter_In. split; [exact Hin|]. apply other_id_true. lia. }
  assert (En : (Z.of_nat (List.length (List.filter (other_id i) (library st0)))
                + 1 = Z.of_nat (List.length adds))%Z) by lia.
  rewrite En. repeat split; try assumption.
  rewrite map_app. cbn [List.map id]. intros ND.
  apply NoDup_remove_2 in ND. rewrite List.app_nil_r in ND.
  apply ND. rewrite <- Eold. now apply in_map.
Qed.

(** Three additions, then the removal of id 1 and one more addition. *)
Lemma add_after_remove_collides_witness :
  Forall is_add three_additions /\
  exists before old,
    library (run (three_additions ++
                  [RemoveBook 1;
                   AddBook (lit "Walden") (lit "Thoreau") 1854 (lit "Essay")
                     true])
               empty_state) =
      before ++ [Book 3 (lit "Walden") (lit "Thoreau") 1854 (lit "Essay") true] /\
    In old before /\ id old = 3%Z /\
    ~ NoDup
        (List.map id
           (library (run (three_additions ++
                          [RemoveBook 1;
                           AddBook (lit "Walden") (lit "Thoreau") 1854
                             (lit "Essay") true])
                       empty_state))).
Proof.
  assert (H : Forall is_add three_additions) by (repeat constructor).
  split; [exact H|].
  exact (add_after_remove_collides three_additions 1 (lit "Walden")
           (lit "Thoreau") 1854 (lit "Essay") true H
           (conj (Z.le_refl 1) eq_refl)).
Defined.

(** Removing the book added last is the safe case: after [n] additions,
    removing the id [n] and adding one more book leaves the ids 1 to [n],
    each once. *)
Theorem add_after_remove_last (adds : list action)
    (t a : str) (y : Z) (g : str) (r : bool) :
  Forall is_add adds ->
  adds <> [] ->
  let n := List.length adds in
  let st :=
    run (adds ++ [RemoveBook (Z.of_nat n); AddBook t a y g r]) empty_state in
  List.map id (library st) = first_ids n /\
  NoDup (List.map id (library st)).
Proof.
  intros Hadds Hne. cbv zeta.
  rewrite run_app.
  set (st0 := run adds empty_state).
  pose proof (ids_after_adds adds Hadds) as Hids. fold st0 in Hids.
  change (run [RemoveBook (Z.of_nat (List.length adds)); AddBook t a y g r] st0)
    with (add_book t a y g r
            (remove_book (Z.of_nat (List.length adds)) st0)).
  rewrite library_add_book, library_remove_book.
  destruct (exists_last Hne) as (l & x & El).
  assert (Hn : List.length adds = S (List.length l))
    by (rewrite El, length_app; cbn [List.length]; lia).
  assert (Hsplit : first_ids (List.length adds) =
                   first_ids (List.length l) ++ [Z.of_nat (List.length adds)]).
  { unfold first_ids. rewrite Hn, seq_S, map_app. reflexivity. }
  assert (Hf : List.map id
                 (List.filter (other_id (Z.of_nat (List.length adds)))
                    (library st0)) = first_ids (List.length l)).
  { unfold other_id.
    rewrite (map_id_filter
               (fun z => negb (z =? Z.of_nat (List.length adds))%Z)).
    rewrite Hids, Hsplit, filter_app. cbn [List.filter].
    rewrite Z.eqb_refl. cbn [negb]. rewrite List.app_nil_r.
    apply filter_all. intros z Hz. unfold first_ids in Hz.
    apply in_map_iff in Hz as (k & <- & Hk). apply in_seq in Hk.
    apply negb_true_iff, Z.eqb_neq. lia. }
  assert (Hlen : List.length
                   (List.filter (other_id (Z.of_nat (List.length adds)))
                      (library st0)) = List.length l).
  { apply (f_equal (@List.length Z)) in Hf.
    unfold first_ids in Hf. now rewrite !length_map, length_seq in Hf. }
  rewrite map_app, Hf, Hlen. cbn [List.map id].
  assert (E : (Z.of_nat (List.length l) + 1)%Z = Z.of_nat (List.length adds))
    by lia.
  rewrite E, <- Hsplit. split; [reflexivity|apply first_ids_NoDup].
Qed.

(** Two additions, the removal of id 2, one more addition. *)
Lemma add_after_remove_last_witness :
  Forall is_add two_additions /\
  List.map id
    (library
       (run (two_additions ++
             [RemoveBook 2;
              AddBook (lit "Walden") (lit "Thoreau") 1854 (lit "Essay") true])
          empty_state)) = first_ids 2.
Proof.
  split; [exact two_additions_are_adds|].
  exact (proj1 (add_after_remove_last two_additions (lit "Walden")
                  (lit "Thoreau") 1854 (lit "Essay") true
                  two_additions_are_adds ltac:(discriminate))).
Defined.

(** Adding a book and removing it again by its new id undoes the addition
    when that id was not in use: the library is the one before and the file
    its serialization.  (When the id was in use the removal takes the older
    record as well.) *)
Theorem remove_after_add_restores (t a : str) (y : Z) (g : str) (r : bool)
    (st : state) :
  let new_id := (Z.of_nat (List.length (library st)) + 1)%Z in
  (forall b, In b (library st) -> id b <> new_id) ->
  remove_book new_id (add_book t a y g r st) = save_library_to_file st.
Proof.
  cbv zeta. intros Hfresh.
  rewrite remove_book_eq, library_add_book, filter_app.
  rewrite (filter_other_id_absent _ _ Hfresh).
  cbn [List.filter].
  replace (other_id (Z.of_nat (List.length (library st)) + 1)
             (Book (Z.of_nat (List.length (library st)) + 1) t a y g r))
    with false
    by (unfold other_id; cbn [id]; now rewrite Z.eqb_refl).
  rewrite List.app_nil_r. reflexivity.
Qed.

(** After two additions the id 3 is not in use. *)
Lemma remove_after_add_restores_witness :
  remove_book 3
    (add_book (lit "Ulysses") (lit "Joyce") 1922 (lit "Novel") false
       (run two_additions empty_state)) =
  save_library_to_file (run two_additions empty_state).
Proof.
  apply (remove_after_add_restores (lit "Ulysses") (lit "Joyce") 1922
           (lit "Novel") false (run two_additions empty_state)).
  intros b [<-|[<-|[]]]; discriminate.
Defined.

(* ================================================================== *)
(** ** The Remove page *)
(* ================================================================== *)

Lemma int_str_inj z z' : int_str z = int_str z' -> z = z'.
Proof.
  intros E.
  pose proof (JsonFacts.scan_number_int_str z [] eq_refl) as H.
  pose proof (JsonFacts.scan_number_int_str z' [] eq_refl) as H'.
  rewrite E, H' in H. congruence.
Qed.

Lemma uint_chars_no_space u : ~ In 32%N (uint_chars u).
Proof.
  induction u; cbn [uint_chars In]; try tauto;
    intros [E|H]; try discriminate E; contradiction.
Qed.

Lemma int_str_no_space z : ~ In 32%N (int_str z).
Proof.
  unfold int_str. destruct (Z.to_int z) as [u|u].
  - apply uint_chars_no_space.
  - cbn [In]. intros [E|H]; [discriminate E|].
    now apply uint_chars_no_space in H.
Qed.

Lemma split_at_space (a a' x x' : str) :
  ~ In 32%N a -> ~ In 32%N a' ->
  a ++ 32%N :: x = a' ++ 32%N :: x' -> a = a' /\ x = x'.
Proof.
  revert a'. induction a as [|c a IH]; intros [|c' a'] Ha Ha' E;
    cbn [app] in E.
  - injection E as ->. now split.
  - injection E as E _. exfalso. apply Ha'. left. now symmetry.
  - injection E as E _. exfalso. apply Ha. now left.
  - injection E as -> E.
    destruct (IH a') as [-> ->]; try assumption.
    + intros H. apply Ha. now right.
    + intros H. apply Ha'. now right.
    + now split.
Qed.

Lemma book_label_eq b b' :
  book_label b = book_label b' -> id b = id b' /\ title b = title b'.
Proof.
  unfold book_label. change (lit " - ") with [32%N; 45%N; 32%N].
  cbn [app]. intros E.
  apply split_at_space in E as [Ei Et]; try apply int_str_no_space.
  split; [now apply int_str_inj|congruence].
Qed.

(** A label names one id and one title: two records shown under the same
    label have the same id and the same title, whatever the title holds. *)
Theorem book_label_determines_id (b b' : book) :
  book_label b = book_label b' -> id b = id b' /\ title b = title b'.
Proof.
  unfold book_label. change (lit " - ") with [32%N; 45%N; 32%N].
  cbn [app]. intros E.
  apply split_at_space in E as [Ei Et]; try apply int_str_no_space.
  split.
  - now apply int_str_inj.
  - congruence.
Qed.

(** Two records with the same id and title, and nothing else in common. *)
Lemma book_label_determines_id_witness :
  book_label (Book 1 (lit "2 - x") [] 0 [] false) =
  book_label (Book 1 (lit "2 - x") (lit "a") 7 (lit "g") true) /\
  id (Book 1 (lit "2 - x") [] 0 [] false) =
  id (Book 1 (lit "2 - x") (lit "a") 7 (lit "g") true) /\
  title (Book 1 (lit "2 - x") [] 0 [] false) =
  title (Book 1 (lit "2 - x") (lit "a") 7 (lit "g") true).
Proof.
  split; [reflexivity|].
  exact (book_label_determines_id
           (Book 1 (lit "2 - x") [] 0 [] false)
           (Book 1 (lit "2 - x") (lit "a") 7 (lit "g") true) eq_refl).
Defined.

Section DictFacts.

Variable V : Type.
Implicit Types (k : str) (v : V) (d : list (str * V)).

Lemma dict_get_put_same k v d : dict_get k (dict_put k v d) = Some v.
Proof.
  induction d as [|[k' v'] d IH]; cbn [dict_put dict_get].
  - now rewrite str_eqb_refl.
  - destruct (str_eqb k k') eqn:E; cbn [dict_get]; rewrite E; auto.
Qed.

Lemma dict_get_put_other k k' v d :
  k <> k' -> dict_get k (dict_put k' v d) = dict_get k d.
Proof.
  intros H. induction d as [|[k0 v0] d IH]; cbn [dict_put dict_get].
  - now rewrite str_eqb_neq.
  - destruct (str_eqb k' k0) eqn:E; cbn [dict_get].
    + apply str_eqb_eq in E. subst k0. now rewrite (str_eqb_neq _ _ H).
    + now rewrite IH.
Qed.

Lemma dict_put_keys k v d k0 :
  In k0 (List.map fst (dict_put k v d)) <-> k0 = k \/ In k0 (List.map fst d).
Proof.
  induction d as [|[k' v'] d IH]; cbn [dict_put List.map fst In].
  - intuition.
  - destruct (str_eqb k k') eqn:E; cbn [List.map fst In].
    + apply str_eqb_eq in E. subst k'. intuition.
    + rewrite IH. intuition.
Qed.

Lemma dict_put_keys_NoDup k v d :
  NoDup (List.map fst d) -> NoDup (List.map fst (dict_put k v d)).
Proof.
  induction d as [|[k' v'] d IH]; cbn [dict_put List.map fst]; intros H.
  - constructor; [intros []|constructor].
  - inversion H as [|? ? Hk Hd]. subst.
    destruct (str_eqb k k') eqn:E; cbn [List.map fst].
    + now constructor.
    + constructor; [|now apply IH].
      rewrite dict_put_keys. intros [->|Hin]; [|contradiction].
      now rewrite str_eqb_refl in E.
Qed.

Lemma dict_get_keys k d :
  In k (List.map fst d) <-> exists v, dict_get k d = Some v.
Proof.
  induction d as [|[k' v'] d IH]; cbn [List.map fst In dict_get].
  - split; [intros []|intros [v E]; discriminate].
  - destruct (str_eqb k k') eqn:E.
    + apply str_eqb_eq in E. subst k'. split; [now exists v'|now left].
    + rewrite <- IH. split; [|tauto].
      intros [->|H]; [|exact H]. now rewrite str_eqb_refl in E.
Qed.

End DictFacts.

Lemma book_options_snoc books b :
  book_options (books ++ [b]) =
  dict_put (book_label b) (id b) (book_options books).
Proof. unfold book_options. now rewrite fold_left_app. Qed.

Lemma book_options_sound books :
  (forall b, In b books ->
             dict_get (book_label b) (book_options books) = Some (id b)) /\
  (forall k i, dict_get k (book_options books) = Some i ->
               exists b, In b books /\ book_label b = k /\ id b = i) /\
  NoDup (List.map fst (book_options books)).
Proof.
  induction books as [|b l (IH1 & IH2 & IH3)] using rev_ind.
  - split; [intros b []|]. split; [intros k i E; discriminate E|constructor].
  - rewrite book_options_snoc. split; [|split].
    + intros b0 Hb0.
      destruct (list_eq_dec N.eq_dec (book_label b0) (book_label b)) as [E|E].
      * rewrite E, dict_get_put_same. f_equal. symmetry.
        now apply book_label_eq.
      * rewrite dict_get_put_other by exact E. apply IH1.
        apply in_app_iff in Hb0 as [H|[->|[]]]; [exact H|contradiction].
    + intros k i Hk.
      destruct (list_eq_dec N.eq_dec k (book_label b)) as [E|E].
      * subst k. rewrite dict_get_put_same in Hk. injection Hk as <-.
        exists b. split; [apply in_app_iff; right; now left|now split].
      * rewrite dict_get_put_other in Hk by exact E.
        destruct (IH2 k i Hk) as (b0 & Hin & Hl & Hi).
        exists b0. split; [apply in_app_iff; now left|now split].
    + now apply dict_put_keys_NoDup.
Qed.

(** The select box of the Remove page offers every record and nothing else:
    each record's label is among the options, each option is the label of a
    record, no option comes twice, and looking a record's label up gives
    that record's id even when several records share the label. *)
Theorem book_options_cover (books : list book) :
  (forall b, In b books ->
             In (book_label b) (option_labels books) /\
             dict_get (book_label b) (book_options books) = Some (id b)) /\
  (forall selected, In selected (option_labels books) ->
                    exists b, In b books /\ book_label b = selected) /\
  NoDup (option_labels books).
Proof.
  destruct (book_options_sound books) as (H1 & H2 & H3).
  unfold option_labels. split; [|split].
  - intros b Hb. split; [|now apply H1].
    apply dict_get_keys. exists (id b). now apply H1.
  - intros selected Hs. apply dict_get_keys in Hs as [i Hi].
    destruct (H2 selected i Hi) as (b & Hb & Hl & _). now exists b.
  - exact H3.
Qed.

Lemma filter_drops_length {A : Type} (f : A -> bool) (l : list A) x :
  In x l -> f x = false ->
  List.length (List.filter f l) < List.length l.
Proof.
  induction l as [|y l IH]; intros Hin Hx; [destruct Hin|].
  cbn [List.filter]. destruct Hin as [->|Hin].
  - rewrite Hx. pose proof (filter_length_le f l). cbn [List.length]. lia.
  - specialize (IH Hin Hx). destruct (f y); cbn [List.length]; lia.
Qed.

(** Pressing Remove on any offered option never fails and always removes
    something: the id looked up is the id of a record under that label, the
    store becomes strictly shorter, and every record carrying that id is
    gone, also those listed under another label. *)
Theorem remove_selected_removes (selected : str) (st : state) :
  In selected (option_labels (library st)) ->
  exists b,
    In b (library st) /\ book_label b = selected /\
    remove_selected selected st = Some (remove_book (id b) st) /\
    List.length (library (remove_book (id b) st)) < List.length (library st) /\
    forall b', In b' (library st) -> id b' = id b ->
               ~ In b' (library (remove_book (id b) st)).
Proof.
  intros Hs. destruct (book_options_sound (library st)) as (H1 & H2 & _).
  apply dict_get_keys in Hs as [i Hi].
  destruct (H2 selected i Hi) as (b & Hb & Hl & Hid). subst i.
  exists b. split; [exact Hb|]. split; [exact Hl|]. split; [|split].
  - unfold remove_selected. now rewrite Hi.
  - rewrite library_remove_book.
    apply (filter_drops_length (other_id (id b)) (library st) b Hb).
    unfold other_id. now rewrite Z.eqb_refl.
  - intros b' _ Hid Hin. rewrite library_remove_book in Hin.
    apply filter_other_id_In in Hin as [_ Hne]. contradiction.
Qed.

(** The store after the session of the design note: two records of id 3. *)
Lemma remove_selected_removes_witness :
  In (lit "3 - Ulysses")
     (option_labels (library (run colliding_session empty_state))) /\
  exists b,
    In b (library (run colliding_session empty_state)) /\
    book_label b = lit "3 - Ulysses" /\
    remove_selected (lit "3 - Ulysses") (run colliding_session empty_state) =
      Some (remove_book (id b) (run colliding_session empty_state)) /\
    List.length
      (library (remove_book (id b) (run colliding_session empty_state))) <
    List.length (library (run colliding_session empty_state)) /\
    forall b', In b' (library (run colliding_session empty_state)) ->
               id b' = id b ->
               ~ In b'
                   (library
                      (remove_book (id b)
                         (run colliding_session empty_state))).
Proof.
  assert (H : In (lit "3 - Ulysses")
                (option_labels (library (run colliding_session empty_state))))
    by (vm_compute; tauto).
  split; [exact H|].
  exact (remove_selected_removes (lit "3 - Ulysses")
           (run colliding_session empty_state) H).
Defined.

(* ================================================================== *)
(** ** The genre filter *)
(* ================================================================== *)

Lemma existsb_str_eqb g l : existsb (str_eqb g) l = true <-> In g l.
Proof.
  rewrite existsb_exists. split.
  - intros (x & Hx & E). apply str_eqb_eq in E. now subst x.
  - intros H. exists g. split; [exact H|apply str_eqb_refl].
Qed.

Lemma genres_snoc books b :
  genres (books ++ [b]) =
  match genre b with
  | [] => genres books
  | _ :: _ =>
      if existsb (str_eqb (genre b)) (genres books) then genres books
      else genres books ++ [genre b]
  end.
Proof. unfold genres. now rewrite fold_left_app. Qed.

Lemma genres_sound books :
  (forall g, In g (genres books) <->
             g <> [] /\ exists b, In b books /\ genre b = g) /\
  NoDup (genres books).
Proof.
  induction books as [|b l [IH1 IH2]] using rev_ind.
  - split; [|constructor]. intros g. split; [intros []|].
    intros [_ (b & [] & _)].
  - rewrite genres_snoc.
    assert (Hold : forall g,
      (g <> [] /\ exists b0, In b0 (l ++ [b]) /\ genre b0 = g) <->
      In g (genres l) \/ (g <> [] /\ genre b = g)).
    { intros g. rewrite IH1. split.
      - intros [Hg (b0 & Hin & E)].
        apply in_app_iff in Hin as [Hin|[->|[]]].
        + left. split; [exact Hg|now exists b0].
        + right. now split.
      - intros [[Hg (b0 & Hin & E)]|[Hg E]].
        + split; [exact Hg|]. exists b0. split; [|exact E].
          apply in_app_iff. now left.
        + split; [exact Hg|]. exists b. split; [|exact E].
          apply in_app_iff. right. now left. }
    destruct (genre b) as [|c gb] eqn:Eg.
    + split; [|exact IH2]. intros g. rewrite Hold. split; [tauto|].
      intros [H|[Hg E]]; [exact H|]. now subst g.
    + destruct (existsb (str_eqb (c :: gb)) (genres l)) eqn:Ex.
      * apply existsb_str_eqb in Ex. split; [|exact IH2].
        intros g. rewrite Hold. split; [tauto|].
        intros [H|[_ <-]]; [exact H|exact Ex].
      * assert (Hnot : ~ In (c :: gb) (genres l)).
        { intros H. apply existsb_str_eqb in H. congruence. }
        split.
        -- intros g. rewrite Hold, in_app_iff. cbn [In]. split.
           ++ intros [H|[<-|[]]]; [now left|right]. split; [discriminate|auto].
           ++ intros [H|[_ <-]]; [now left|right; now left].
        -- apply NoDup_app; [exact IH2|constructor; [intros []|constructor]|].
           intros g Hg [<-|[]]. contradiction.
Qed.

(** The genre filter offers "All" and then exactly the non-empty genres of
    the library, each once; and each offered genre finds something: the
    search by that genre alone returns at least one record. *)
Theorem genre_options_find (lower : str -> str) (books : list book) :
  (forall g, In g (genre_filter_options books) <->
             g = lit "All" \/
             (g <> [] /\ exists b, In b books /\ genre b = g)) /\
  NoDup (genres books) /\
  (forall g, In g (genres books) ->
             exists b, In b (search_books lower books [] g (lit "All"))).
Proof.
  destruct (genres_sound books) as [H1 H2].
  split; [|split; [exact H2|]].
  - intros g. unfold genre_filter_options. cbn [In]. rewrite H1.
    split; intros [H|H]; auto.
  - intros g Hg. apply H1 in Hg as [_ (b & Hb & E)]. exists b.
    rewrite search_books_meets. apply filter_In. split; [exact Hb|].
    unfold meets_criteria. rewrite E, !str_eqb_refl.
    cbn [andb orb]. now rewrite orb_true_r.
Qed.

(* ================================================================== *)
(** ** The text of the file *)
(* ================================================================== *)



Create HintDb ascii.

Lemma ascii_nil : ascii_only [].
Proof. constructor. Qed.

Lemma ascii_cons c s : (c < 128)%N -> ascii_only s -> ascii_only (c :: s).
Proof. intros Hc Hs. now constructor. Qed.

Lemma ascii_app a b : ascii_only a -> ascii_only b -> ascii_only (a ++ b).
Proof. intros Ha Hb. apply Forall_app. now split. Qed.

#[local] Hint Resolve ascii_nil ascii_app : ascii.
#[local] Hint Extern 1 (ascii_only (_ :: _)) =>
  apply ascii_cons; [reflexivity|] : ascii.

Lemma hex_digit_ascii d : (d < 16)%N -> (hex_digit d < 128)%N.
Proof. intros H. unfold hex_digit. destruct (d <? 10)%N; lia. Qed.

Lemma u_escape_ascii n : ascii_only (u_escape n).
Proof.
  unfold u_escape.
  repeat (apply ascii_cons;
          [first [reflexivity|apply hex_digit_ascii, JsonFacts.nibble_lt]|]).
  apply ascii_nil.
Qed.
#[local] Hint Resolve u_escape_ascii : ascii.

Lemma encode_char_ascii c : ascii_only (encode_char c).
Proof.
  unfold encode_char.
  destruct ((32 <=? c)%N && (c <=? 126)%N && negb (c =? QUOTE)%N
            && negb (c =? BACKSLASH)%N) eqn:E.
  - rewrite !andb_true_iff, !N.leb_le in E.
    apply ascii_cons; [lia|apply ascii_nil].
  - repeat match goal with
           | |- ascii_only (if ?t then _ else _) => destruct t
           end; cbv zeta; auto 10 with ascii.
Qed.

Lemma encode_chars_ascii s : ascii_only (encode_chars s).
Proof.
  unfold encode_chars. induction s as [|c s IH]; cbn [flat_map].
  - apply ascii_nil.
  - apply ascii_app; [apply encode_char_ascii|exact IH].
Qed.

Lemma encode_basestring_ascii_ascii s : ascii_only (encode_basestring_ascii s).
Proof.
  unfold encode_basestring_ascii.
  apply ascii_cons; [reflexivity|].
  apply ascii_app; [apply encode_chars_ascii|auto with ascii].
Qed.

Lemma uint_chars_ascii u : ascii_only (uint_chars u).
Proof. induction u; cbn [uint_chars]; auto with ascii. Qed.

Lemma int_str_ascii z : ascii_only (int_str z).
Proof.
  unfold int_str. destruct (Z.to_int z).
  - apply uint_chars_ascii.
  - apply ascii_cons; [reflexivity|apply uint_chars_ascii].
Qed.

Lemma newline_indent_ascii lvl : ascii_only (newline_indent lvl).
Proof.
  unfold newline_indent. apply ascii_cons; [reflexivity|].
  induction (4 * lvl) as [|n IH]; cbn [repeat]; auto with ascii.
Qed.
#[local] Hint Resolve encode_basestring_ascii_ascii int_str_ascii
  newline_indent_ascii : ascii.

Ltac ascii_step :=
  match goal with
  | |- ascii_only [] => apply ascii_nil
  | |- ascii_only (newline_indent _) => apply newline_indent_ascii
  | |- ascii_only (encode_basestring_ascii _) =>
      apply encode_basestring_ascii_ascii
  | |- ascii_only (int_str _) => apply int_str_ascii
  | |- ascii_only (lit _) => cbv; repeat constructor
  | |- ascii_only (_ ++ _) => apply ascii_app
  | |- ascii_only (_ :: _) => apply ascii_cons; [reflexivity|]
  end.

Lemma dict_of_book_ascii lvl b : ascii_only (iterencode lvl (dict_of_book b)).
Proof.
  unfold dict_of_book. cbn [iterencode flat_map fst snd].
  destruct (read_status b); repeat ascii_step.
Qed.

Lemma library_value_ascii books :
  ascii_only (json_dumps (library_value books)).
Proof.
  unfold json_dumps, library_value.
  destruct books as [|b books]; cbn [List.map iterencode].
  - repeat ascii_step.
  - apply ascii_cons; [reflexivity|].
    apply ascii_app; [apply newline_indent_ascii|].
    apply ascii_app; [apply dict_of_book_ascii|].
    apply ascii_app; [|repeat ascii_step].
    induction books as [|b' books IH]; cbn [List.map flat_map].
    + apply ascii_nil.
    + apply ascii_app; [|exact IH].
      apply ascii_cons; [reflexivity|].
      apply ascii_app;
        [apply newline_indent_ascii|apply dict_of_book_ascii].
Qed.

(** Whatever the titles, authors and genres hold, the file written by
    [save_library_to_file] is pure ASCII, so that reading it back does not
    depend on the encoding the file is opened with. *)
Theorem saved_file_is_ascii (st : state) :
  exists text,
    library_file (save_library_to_file st) = Some text /\ ascii_only text.
Proof.
  eexists. split; [reflexivity|]. apply library_value_ascii.
Qed.
